(** * ModelsDict: the ordered registry of property models of OpenPNM

    A shallow embedding of [OpenPNM/Base/__ModelsDict__.py].  The Python
    class [ModelsDict] is an [OrderedDict] from property names to
    [GenericModel] entries (plain dicts of keyword arguments) together with
    a reference [_master] to the host object that stores the computed
    values.  Its methods mutate the registry, the host and the logger, and
    may raise; they are embedded in a state-and-exception monad [Py] over a
    record [World] holding exactly these three pieces of state. *)

From stdpp Require Import gmap strings list fin_maps pretty.
From Stdlib Require Import ZArith.

Local Open Scope string_scope.
Local Open Scope list_scope.
Local Open Scope Z_scope.

(** ** Python values *)

(** Object identities that can be bound into an entry: the registry object
    itself ([self] inside the methods of [ModelsDict]), the host
    ([self._master]) and any other object of the framework. *)
Inductive ref : Type :=
  | SelfRef
  | MasterRef
  | ObjRef (n : nat).

(** The values that flow through the module.  A model function is named by
    an index into the table of model functions of the session (see
    [call_fun] below). *)
Inductive pyval : Type :=
  | PyNone
  | PyStr (s : string)
  | PyInt (z : Z)
  | PyFun (f : nat)
  | PyRef (r : ref).

(** The exceptions of the Python runtime that the module can meet, and
    [ModelError] for whatever a model function raises itself. *)
Inductive exn : Type :=
  | TypeError
  | KeyError (key : pyval)
  | ValueError
  | IndexError
  | AttributeError (attr : string)
  | OverflowError
  | ModelError (payload : pyval).

Inductive result (A : Type) : Type :=
  | Ok (a : A)
  | Raise (e : exn).
Arguments Ok {A} a.
Arguments Raise {A} e.

#[export] Instance result_ret : MRet result := @Ok.
#[export] Instance result_bind : MBind result := λ A B k r,
  match r with
  | Ok a => k a
  | Raise e => Raise e
  end.

(** ** Data model *)

(** [GenericModel(dict)]: a dict with string keys. Only lookups and
    [update] are used on it, so the order of its items plays no role. *)
Abbreviation GenericModel := (gmap string pyval).

(** An insertion-ordered dict ([OrderedDict], and the builtin [dict] whose
    iteration order is insertion order): keys in order, each at most
    once. *)
Abbreviation pydict K V := (list (K * V)).

(** The registry object: the class names along the method resolution order
    of its class, the instance attributes [_net] and [_phases] that [add]
    reads ([None]: the attribute does not exist), and the ordered items. *)
Record ModelsDict : Type := mkModelsDict {
  class_mro : list string;
  _net : option pyval;
  _phases : option (list pyval);
  items : pydict string GenericModel
}.

(** The host [self._master]: its class ancestry and its property store. *)
Record Host : Type := mkHost {
  host_mro : list string;
  host_data : gmap string pyval
}.

Inductive level : Type := INFO | WARNING.

#[export] Instance level_eq_dec : EqDecision level.
Proof. solve_decision. Defined.

Record World : Type := mkWorld {
  self : ModelsDict;
  _master : Host;
  logger : list (level * string)
}.

(** The ancestry of a plain [ModelsDict(OrderedDict)] instance. *)
Definition ModelsDict_mro : list string :=
  ["ModelsDict"; "OrderedDict"; "dict"; "object"].

(** [ModelsDict.__init__(master)] with no items. *)
Definition ModelsDict_init (master : Host) : World :=
  mkWorld (mkModelsDict ModelsDict_mro None None []) master [].

(** ** The monad of methods: state and exceptions *)

Definition Py (A : Type) : Type := World → result A * World.

Definition ret {A} (a : A) : Py A := λ w, (Ok a, w).
Definition raise {A} (e : exn) : Py A := λ w, (Raise e, w).
Definition bind {A B} (m : Py A) (k : A → Py B) : Py B :=
  λ w, match m w with
       | (Ok a, w') => k a w'
       | (Raise e, w') => (Raise e, w')
       end.
Definition lift {A} (r : result A) : Py A := λ w, (r, w).
Definition gets {A} (f : World → A) : Py A := λ w, (Ok (f w), w).
Definition modify (f : World → World) : Py unit := λ w, (Ok tt, f w).

#[export] Instance Py_ret : MRet Py := @ret.
#[export] Instance Py_bind : MBind Py := λ A B k m, bind m k.

(** ** Builtins *)

(** [v == s] for a string literal [s]. *)
Definition py_eq_str (v : pyval) (s : string) : bool :=
  match v with
  | PyStr s' => bool_decide (s' = s)
  | _ => false
  end.

(** [d[k]] on a dict. *)
Definition dict_getitem (d : GenericModel) (k : string) : result pyval :=
  match d !! k with
  | Some v => Ok v
  | None => Raise (KeyError (PyStr k))
  end.

(** [d.update] with the keyword arguments [kw]: the items of [kw] win. *)
Definition dict_update (d kw : GenericModel) : GenericModel := kw ∪ d.

(** [l.remove(x)]: drops the first occurrence, [ValueError] if there is
    none. *)
Fixpoint list_remove (x : string) (l : list string) : result (list string) :=
  match l with
  | [] => Raise ValueError
  | y :: l' =>
      if decide (x = y) then Ok l'
      else r ← list_remove x l'; Ok (y :: r)
  end.

(** The largest index the runtime accepts ([sys.maxsize] of a 64-bit
    build); an index argument beyond it is refused with [OverflowError]. *)
Definition PY_SSIZE_T_MAX : Z := 2 ^ 63 - 1.

(** [l.insert(i, x)]: a negative [i] counts from the end, and the position
    is then cut to [0 .. len(l)]. *)
Definition list_insert_at {A} (i : Z) (x : A) (l : list A) : result (list A) :=
  if bool_decide (- PY_SSIZE_T_MAX - 1 ≤ i ≤ PY_SSIZE_T_MAX) then
    let n := Z.of_nat (length l) in
    let where_ := if bool_decide (i < 0) then
                    (if bool_decide (i + n < 0) then 0 else i + n)
                  else i in
    let where_ := if bool_decide (where_ > n) then n else where_ in
    Ok (take (Z.to_nat where_) l ++ x :: drop (Z.to_nat where_) l)
  else Raise OverflowError.

(** [l[i]] for a non-negative literal index. *)
Definition list_getitem (l : list pyval) (i : nat) : result pyval :=
  match l !! i with
  | Some x => Ok x
  | None => Raise IndexError
  end.

(** Ordered-dict primitives on the items of the registry. *)
Section pydict.
Context {K : Type} `{EqDecision K} {V : Type}.

Definition pd_keys (d : pydict K V) : list K := d.*1.

Fixpoint pd_lookup (k : K) (d : pydict K V) : option V :=
  match d with
  | [] => None
  | (k', v) :: d' => if decide (k = k') then Some v else pd_lookup k d'
  end.

(** [d[k] = v]: in place when [k] is a key, appended otherwise. *)
Fixpoint pd_set (k : K) (v : V) (d : pydict K V) : pydict K V :=
  match d with
  | [] => [(k, v)]
  | (k', v') :: d' =>
      if decide (k = k') then (k', v) :: d' else (k', v') :: pd_set k v d'
  end.

Fixpoint pd_delete (k : K) (d : pydict K V) : pydict K V :=
  match d with
  | [] => []
  | (k', v') :: d' =>
      if decide (k = k') then d' else (k', v') :: pd_delete k d'
  end.
End pydict.

(** [OrderedDict.move_to_end(key)]. *)
Definition pd_move_to_end (k : string) (d : pydict string GenericModel)
    : result (pydict string GenericModel) :=
  match pd_lookup k d with
  | Some v => Ok (pd_delete k d ++ [(k, v)])
  | None => Raise (KeyError (PyStr k))
  end.

(** ** State accessors *)

Definition set_items (d : pydict string GenericModel) (w : World) : World :=
  mkWorld (mkModelsDict (class_mro (self w)) (_net (self w)) (_phases (self w)) d)
          (_master w) (logger w).

Definition set_master_item (k : string) (v : pyval) (w : World) : World :=
  mkWorld (self w)
          (mkHost (host_mro (_master w)) (<[k := v]> (host_data (_master w))))
          (logger w).

Definition add_log (l : level) (msg : string) (w : World) : World :=
  mkWorld (self w) (_master w) (logger w ++ [(l, msg)]).

(** [list(self.keys())] *)
Definition keys : Py (list string) := gets (λ w, pd_keys (items (self w))).

(** [self[item]] *)
Definition ModelsDict_getitem (item : string) : Py GenericModel :=
  λ w, match pd_lookup item (items (self w)) with
       | Some e => (Ok e, w)
       | None => (Raise (KeyError (PyStr item)), w)
       end.

(** [super(ModelsDict,self).__setitem__(propname,temp)] *)
Definition OrderedDict_setitem (propname : string) (temp : GenericModel) : Py unit :=
  modify (λ w, set_items (pd_set propname temp (items (self w))) w).

(** [self._master[item] = value] *)
Definition master_setitem (item : string) (value : pyval) : Py unit :=
  modify (set_master_item item value).

Definition logger_info (msg : string) : Py unit := modify (add_log INFO msg).
Definition logger_warning (msg : string) : Py unit := modify (add_log WARNING msg).

(** [self.<name>] for the two attributes [add] reads. *)
Definition getattr {A} (name : string) (field : ModelsDict → option A) : Py A :=
  λ w, match field (self w) with
       | Some v => (Ok v, w)
       | None => (Raise (AttributeError name), w)
       end.

(** [self.move_to_end(item)] *)
Definition ModelsDict_move_to_end (item : string) : Py unit :=
  λ w, match pd_move_to_end item (items (self w)) with
       | Ok d => (Ok tt, set_items d w)
       | Raise e => (Raise e, w)
       end.

(** The [props] argument of [regenerate]: a string or a list of strings. *)
Inductive props_arg : Type :=
  | PropsStr (s : string)
  | PropsList (l : list string).

(** ** The methods *)

Section methods.

(** The model functions of the session.  [call_fun f kwargs w] is what the
    call of function number [f] with keyword arguments [kwargs] returns or
    raises when the objects it can reach are in state [w]; a model reads
    but does not write. *)
Variable call_fun : nat → GenericModel → World → result pyval.

(** A call with keyword arguments: only functions are callable. *)
Definition py_call (callee : pyval) (kwargs : GenericModel) : Py pyval :=
  match callee with
  | PyFun f => λ w, (call_fun f kwargs w, w)
  | _ => raise TypeError
  end.

(** [f()] for [f] a plain dict: a dict has no [__call__]. *)
Definition dict_call (f : GenericModel) : Py pyval := raise TypeError.

(** *** GenericModel *)

Definition GenericModel_init (kwargs : GenericModel) : GenericModel :=
  dict_update ∅ kwargs.

Definition GenericModel_call (self_ : GenericModel) : Py pyval :=
  model ← lift (dict_getitem self_ "model");
  py_call model self_.

Definition GenericModel_regenerate (self_ : GenericModel) : Py pyval :=
  model ← lift (dict_getitem self_ "model");
  py_call model self_.

(** *** ModelsDict.__setitem__ *)

(** The entry [temp] that is stored for the mapping [model]. *)
Definition wrap (propname : string) (model : GenericModel) : GenericModel :=
  let temp := GenericModel_init {[ "propname" := PyStr propname; "model" := PyNone ]} in
  dict_update temp model.

Definition ModelsDict_setitem (propname : string) (model : GenericModel) : Py unit :=
  let temp := wrap propname model in
  OrderedDict_setitem propname temp.

(** *** ModelsDict.regenerate *)

(** The loop that drops the on-demand models from the defaulted [props].
    It iterates over the very list it shrinks: the list iterator is the
    index [i], which advances by one whether or not the list got
    shorter, and the loop ends once [i] is past the end.  [fuel] bounds
    the number of iterations. *)
Fixpoint on_demand_loop (fuel : nat) (i : nat) (props : list string)
    : Py (list string) :=
  match fuel with
  | O => mret props
  | S fuel' =>
      match props !! i with
      | None => mret props
      | Some item =>
          entry ← ModelsDict_getitem item;
          regen_mode ← lift (dict_getitem entry "regen_mode");
          if py_eq_str regen_mode "on_demand" then
            props' ← lift (list_remove item props);
            on_demand_loop fuel' (S i) props'
          else on_demand_loop fuel' (S i) props
      end
  end.

(** [for item in props: temp.remove(item)] *)
Fixpoint remove_loop (props temp : list string) : result (list string) :=
  match props with
  | [] => Ok temp
  | item :: rest => temp' ← list_remove item temp; remove_loop rest temp'
  end.

(** The final loop of [regenerate], with its counter. *)
Fixpoint regenerate_loop (props : list string) (count : nat) : Py unit :=
  match props with
  | [] => mret tt
  | item :: rest =>
      ks ← keys;
      if bool_decide (item ∈ ks) then
        entry ← ModelsDict_getitem item;
        value ← GenericModel_regenerate entry;
        master_setitem item value;;
        logger_info (pretty count +:+ " : " +:+ item);;
        regenerate_loop rest (S count)
      else
        logger_warning ("Requested proptery is not a dynamic model: " +:+ item);;
        regenerate_loop rest count
  end.

(** The first part of [regenerate]: the names to run, from [props] and
    [mode]. *)
Definition select (props : props_arg) (mode : string) : Py (list string) :=
  props ← match props with
          | PropsStr s =>
              if bool_decide (s = "") then
                props ← keys;
                on_demand_loop (length props) 0 props
              else mret [s]
          | PropsList l => mret l
          end;
  if bool_decide (mode = "exclude") then
    temp ← keys;
    lift (remove_loop props temp)
  else mret props.

Definition header : string :=
  "Models are being recalculated in the following order: ".

Definition regenerate (props : props_arg) (mode : string) : Py unit :=
  props ← select props mode;
  logger_info header;;
  regenerate_loop props 0.

(** *** ModelsDict.add *)

(** The context objects, from the class ancestry of [self]: the tuple
    [(network, phase, geometry, physics)]. *)
Definition resolve_context : Py (pyval * pyval * pyval * pyval) :=
  self_type ← gets (λ w, class_mro (self w));
  if bool_decide ("GenericGeometry" ∈ self_type) then
    net ← getattr "_net" _net;
    mret (net, PyNone, PyRef SelfRef, PyNone)
  else if bool_decide ("GenericPhase" ∈ self_type) then
    net ← getattr "_net" _net;
    mret (net, PyRef SelfRef, PyNone, PyNone)
  else if bool_decide ("GenericPhysics" ∈ self_type) then
    net ← getattr "_net" _net;
    phases ← getattr "_phases" _phases;
    phase0 ← lift (list_getitem phases 0);
    mret (net, phase0, PyNone, PyRef SelfRef)
  else mret (PyRef SelfRef, PyNone, PyNone, PyNone).

(** The dict [f]: the six fixed items, then [f.update] with the keyword
    arguments of the call. *)
Definition build_f (model : pyval) (context : pyval * pyval * pyval * pyval)
    (regen_mode : string) (kwargs : GenericModel) : GenericModel :=
  let '(network, phase, geometry, physics) := context in
  let f : GenericModel :=
    <["model" := model]> (<["network" := network]> (<["phase" := phase]>
    (<["geometry" := geometry]> (<["physics" := physics]>
    (<["regen_mode" := PyStr regen_mode]> ∅))))) in
  dict_update f kwargs.

Definition add (propname : string) (model : pyval) (regen_mode : string)
    (kwargs : GenericModel) : Py unit :=
  context ← resolve_context;
  let f := build_f model context regen_mode kwargs in
  (if bool_decide (regen_mode = "static") then ModelsDict_setitem propname f
   else mret tt);;
  (if bool_decide (regen_mode = "constant") then
     value ← dict_call f;
     master_setitem propname value
   else mret tt);;
  (if bool_decide (regen_mode ∈ ["deferred"; "on_demand"]) then
     ModelsDict_setitem propname f
   else mret tt).

(** *** ModelsDict.reorder *)

(** [{v: k for k, v in new_order.items()}] *)
Definition invert (new_order : pydict string Z) : pydict Z string :=
  foldl (λ d kv, pd_set kv.2 kv.1 d) [] new_order.

(** [for item in inv_dict: order.insert(item, inv_dict[item])], over the
    keys [ks] of [inv_dict]. *)
Fixpoint insert_loop (ks : list Z) (inv_dict : pydict Z string)
    (order : list string) : result (list string) :=
  match ks with
  | [] => Ok order
  | item :: rest =>
      match pd_lookup item inv_dict with
      | Some name =>
          order' ← list_insert_at item name order;
          insert_loop rest inv_dict order'
      | None => Raise (KeyError (PyInt item))
      end
  end.

(** [for item in order: self.move_to_end(item)] *)
Fixpoint move_loop (order : list string) : Py unit :=
  match order with
  | [] => mret tt
  | item :: rest => ModelsDict_move_to_end item;; move_loop rest
  end.

Definition reorder (new_order : pydict string Z) : Py unit :=
  order ← keys;
  order ← lift (remove_loop (pd_keys new_order) order);
  let inv_dict := invert new_order in
  order ← lift (insert_loop (pd_keys inv_dict) inv_dict order);
  move_loop order.

End methods.

(** The names that an explicitly supplied [props] stands for ([props = '']
    names nothing: it asks for the default selection). *)
Definition named (props : props_arg) : list string :=
  match props with
  | PropsStr s => if bool_decide (s = "") then [] else [s]
  | PropsList l => l
  end.

(** Every entry of the registry carries its key as [propname]. *)
Definition propname_is_key (d : pydict string GenericModel) : Prop :=
  Forall (λ kv, kv.2 !! "propname" = Some (PyStr kv.1)) d.

(** The keyword arguments that can reach [**kwargs] of [add]: the names of
    its own parameters are bound to those and never land in [kwargs]. *)
Definition add_kwargs (kwargs : GenericModel) : Prop :=
  kwargs !! "propname" = None ∧ kwargs !! "model" = None ∧
  kwargs !! "regen_mode" = None ∧ kwargs !! "self" = None.

(** Whether the entry stored under [k] is marked to run on demand only. *)
Definition is_on_demand (w : World) (k : string) : bool :=
  match pd_lookup k (items (self w)) with
  | Some entry =>
      match entry !! "regen_mode" with
      | Some v => py_eq_str v "on_demand"
      | None => false
      end
  | None => false
  end.

(** What is left of a list of names once the on-demand loop has gone over
    it: a name marked on demand goes, and the name after it is kept
    without being looked at. *)
Fixpoint survivors (od : string → bool) (l : list string) : list string :=
  match l with
  | [] => []
  | x :: l' =>
      if od x then
        match l' with
        | [] => []
        | y :: l'' => y :: survivors od l''
        end
      else x :: survivors od l'
  end.

(** The names that every entry stored by [add] holds. *)
Definition reserved_keys : gset string :=
  list_to_set ["model"; "regen_mode"; "propname"; "network"; "phase";
               "geometry"; "physics"].

(** ** The selection rules of the specification, for comparison *)

(** Following the spec's words (section 4.4): the selected keys are run "in
    Registry iteration order (not selection order)"; names that are no
    Registry key are warned about. *)
Definition registry_order (props ks : list string) : list string :=
  filter (λ k, k ∈ props) ks ++ filter (λ k, k ∉ ks) props.

(** Following the spec's words (section 4.5): the named keys leave the
    sequence, and come back one by one "in ascending order of target
    index", ties "by the order the keys were supplied", each index clamped
    "into range". *)
Fixpoint insert_by_index (a : string * Z) (l : list (string * Z))
    : list (string * Z) :=
  match l with
  | [] => [a]
  | b :: l' =>
      if bool_decide (a.2 ≤ b.2) then a :: b :: l'
      else b :: insert_by_index a l'
  end.

Definition sort_by_index (new_order : pydict string Z) : list (string * Z) :=
  foldr insert_by_index [] new_order.

Definition clamp_index (n i : Z) : Z := Z.max 0 (Z.min i n).

Definition insert_clamped (order : list string) (a : string * Z) : list string :=
  let i := Z.to_nat (clamp_index (Z.of_nat (length order)) a.2) in
  take i order ++ a.1 :: drop i order.

Definition reorder_spec (new_order : pydict string Z) (order : list string)
    : list string :=
  foldl insert_clamped
        (filter (λ k, k ∉ pd_keys new_order) order)
        (sort_by_index new_order).

(** ** Sessions used as concrete inputs *)

(** Three model functions: number 0 returns 10 whatever it is given,
    number 1 returns the host's ["pore.seed"] plus one, any other number
    raises. *)
Definition demo_fun (f : nat) (kwargs : GenericModel) (w : World) : result pyval :=
  match f with
  | O => Ok (PyInt 10)
  | S O =>
      match host_data (_master w) !! "pore.seed" with
      | Some (PyInt z) => Ok (PyInt (z + 1))
      | _ => Raise (KeyError (PyStr "pore.seed"))
      end
  | _ => Raise (ModelError (PyStr "boom"))
  end.

(** Model functions that always return: number [f] returns the integer
    [f]. *)
Definition const_fun (f : nat) (kwargs : GenericModel) (w : World) : result pyval :=
  Ok (PyInt (Z.of_nat f)).

(** A geometry object as host. *)
Definition geometry_host : Host :=
  mkHost ["GenericGeometry"; "Core"; "dict"; "object"] ∅.

(** The registry of the docstring of [reorder]:
    [['pore.seed', 'throat.seed', 'throat.length']]. *)
Definition test_geometry : World :=
  let w := ModelsDict_init geometry_host in
  let w := (add "pore.seed" (PyFun 0) "static" ∅ w).2 in
  let w := (add "throat.seed" (PyFun 0) "static" ∅ w).2 in
  (add "throat.length" (PyFun 0) "static" ∅ w).2.

(** Two models that run on demand only, added one after the other. *)
Definition two_on_demand : World :=
  let w := ModelsDict_init geometry_host in
  let w := (add "pore.seed" (PyFun 0) "on_demand" ∅ w).2 in
  (add "throat.seed" (PyFun 0) "on_demand" ∅ w).2.

(** A model that depends on the value of an earlier one: ["pore.diameter"]
    is computed from ["pore.seed"], whose stored value is 0. *)
Definition dependent_models : World :=
  let w := ModelsDict_init geometry_host in
  let w := (add "pore.seed" (PyFun 0) "static" ∅ w).2 in
  let w := (add "pore.diameter" (PyFun 1) "static" ∅ w).2 in
  set_master_item "pore.seed" (PyInt 0) w.

(** A registry whose second model fails. *)
Definition failing_models : World :=
  let w := ModelsDict_init geometry_host in
  let w := (add "pore.seed" (PyFun 0) "static" ∅ w).2 in
  let w := (add "pore.volume" (PyFun 2) "static" ∅ w).2 in
  (add "throat.seed" (PyFun 0) "static" ∅ w).2.

(** ** ModelsDict.__str__ *)

(** [c*n] for a string [c]. *)
Fixpoint str_repeat (c : string) (n : nat) : string :=
  match n with
  | O => ""
  | S n' => c +:+ str_repeat c n'
  end.

(** A [str] is held as the bytes of its UTF-8 encoding, as a string
    literal of this file is.  A byte [10xxxxxx] continues a character;
    every other byte starts one. *)
Definition is_continuation (c : Ascii.ascii) : bool :=
  match c with
  | Ascii.Ascii _ _ _ _ _ _ b6 b7 => b7 && negb b6
  end.

(** [len(s)]: the number of characters (code points) of [s]. *)
Fixpoint py_len (s : string) : nat :=
  match s with
  | EmptyString => O
  | String c s' => if is_continuation c then py_len s' else S (py_len s')
  end.

(** A format field [<width]: the text, then spaces up to [width]
    characters; a longer text is not cut.  The width counts characters,
    not bytes. *)
Definition ljust (width : nat) (s : string) : string :=
  s +:+ str_repeat " " (width - py_len s).

(** A format field [<width s] applied to a value: only a string takes the
    presentation type [s]; an integer refuses it with [ValueError], any
    other object refuses a non-empty format with [TypeError]. *)
Definition format_s (width : nat) (v : pyval) : result string :=
  match v with
  | PyStr s => Ok (ljust width s)
  | PyInt _ => Raise ValueError
  | _ => Raise TypeError
  end.

(** A line of the table, from its three formatted fields. *)
Definition table_row (n a b : string) : string :=
  n +:+ " " +:+ a +:+ " " +:+ b.

(** The loop of [__str__]; [out] is what was printed so far.  The
    arguments of [format] are evaluated, then formatted, before [print]
    runs. *)
Fixpoint str_loop (w : World) (ks : list string) (count : nat)
    (out : list string) : list string * result unit :=
  match ks with
  | [] => (out, Ok tt)
  | item :: rest =>
      match (entry ← (ModelsDict_getitem item w).1;
             regen_mode ← dict_getitem entry "regen_mode";
             format_s 20 regen_mode) with
      | Ok b =>
          str_loop w rest (S count)
            (out ++ [table_row (ljust 5 (pretty count)) (ljust 30 item) b])
      | Raise e => (out, Raise e)
      end
  end.

(** [ModelsDict.__str__]: the lines printed and the value returned. *)
Definition ModelsDict_str (w : World) : list string * result string :=
  let header := str_repeat "-" 60 in
  let out := [header;
              table_row (ljust 5 "#") (ljust 30 "Property Name")
                        (ljust 20 "Regeneration Mode");
              header] in
  match str_loop w (pd_keys (items (self w))) 0 out with
  | (out, Ok _) => (out ++ [header], Ok " ")
  | (out, Raise e) => (out, Raise e)
  end.

(** Target indices in strictly ascending order. *)
Fixpoint ascending (l : pydict string Z) : Prop :=
  match l with
  | [] => True
  | kv :: l' => Forall (λ kv', kv.2 < kv'.2) l' ∧ ascending l'
  end.


(** An on-demand model between two static ones. *)
Definition mixed_models : World :=
  let w := ModelsDict_init geometry_host in
  let w := (add "pore.seed" (PyFun 0) "static" ∅ w).2 in
  let w := (add "pore.diameter" (PyFun 1) "on_demand" ∅ w).2 in
  (add "throat.seed" (PyFun 0) "deferred" ∅ w).2.

(** A registry with a name that is not ASCII: ["pöre.seed"] has nine
    characters in ten bytes. *)
Definition accented_models : World :=
  let w := ModelsDict_init geometry_host in
  let w := (add "pöre.seed" (PyFun 0) "static" ∅ w).2 in
  (add "throat.seed" (PyFun 0) "deferred" ∅ w).2.

(** The registry of the docstring with one more entry, assigned directly
    and without a regeneration mode. *)
Definition unmoded_models : World :=
  (ModelsDict_setitem "pore.area" {[ "model" := PyFun 0 ]} test_geometry).2.

(** ** Reasoning about the monad *)

Ltac py_unfold :=
  unfold mbind, mret, Py_bind, Py_ret, result_bind, result_ret, bind, ret,
    lift, raise, gets, modify in *.

Lemma bind_Ok {A B} (m : Py A) (k : A → Py B) w a w' :
  m w = (Ok a, w') → (m ≫= k) w = k a w'.
Proof. intros H. py_unfold. by rewrite H. Qed.

Lemma bind_Raise {A B} (m : Py A) (k : A → Py B) w e w' :
  m w = (Raise e, w') → (m ≫= k) w = (Raise e, w').
Proof. intros H. py_unfold. by rewrite H. Qed.

(** ** Lists and ordered dicts *)

Lemma list_remove_Ok x l : x ∈ l → ∃ l', list_remove x l = Ok l'.
Proof.
  induction l as [|y l IH]; intros Hin; [by apply elem_of_nil in Hin|].
  simpl. destruct (decide (x = y)) as [->|Hne]; [eauto|].
  apply elem_of_cons in Hin as [?|Hin]; [done|].
  destruct (IH Hin) as [l' ->]. py_unfold. eauto.
Qed.

Lemma list_remove_Raise x l : x ∉ l → list_remove x l = Raise ValueError.
Proof.
  induction l as [|y l IH]; intros Hnin; [done|].
  simpl. apply not_elem_of_cons in Hnin as [Hne Hnin].
  rewrite decide_False by done. rewrite IH by done. done.
Qed.

Lemma list_remove_Permutation x l l' : list_remove x l = Ok l' → l ≡ₚ x :: l'.
Proof.
  revert l'. induction l as [|y l IH]; intros l'; simpl; [done|].
  destruct (decide (x = y)) as [->|Hne]; [by intros [= ->]|].
  destruct (list_remove x l) as [r|e] eqn:Hr; py_unfold; [|done].
  intros [= <-]. rewrite (IH r eq_refl). apply Permutation_swap.
Qed.

Lemma list_remove_length x l l' :
  list_remove x l = Ok l' → length l = S (length l').
Proof. intros H. by rewrite (list_remove_Permutation _ _ _ H). Qed.

Lemma list_remove_error x l e : list_remove x l = Raise e → e = ValueError.
Proof.
  induction l as [|y l IH]; simpl; [congruence|].
  destruct (decide (x = y)); [done|]. py_unfold.
  destruct (list_remove x l); [done|]. intros [= <-]. by apply IH.
Qed.

Lemma list_remove_lookup x l i :
  NoDup l → l !! i = Some x → list_remove x l = Ok (take i l ++ drop (S i) l).
Proof.
  revert i. induction l as [|y l IH]; intros i Hnd Hi; [done|].
  apply NoDup_cons in Hnd as [Hnin Hnd]. simpl.
  destruct i as [|i]; simpl in *.
  - simplify_eq. by rewrite decide_True.
  - rewrite decide_False.
    + by rewrite (IH i Hnd Hi).
    + intros ->. apply Hnin. by eapply list_elem_of_lookup_2.
Qed.

Lemma list_insert_at_Ok {A} (i : Z) (x : A) (l : list A) :
  - PY_SSIZE_T_MAX - 1 ≤ i ≤ PY_SSIZE_T_MAX →
  ∃ l', list_insert_at i x l = Ok l' ∧ l' ≡ₚ x :: l.
Proof.
  intros Hi. unfold list_insert_at. rewrite bool_decide_eq_true_2 by done.
  eexists. split; [done|].
  by rewrite <-Permutation_middle, take_drop.
Qed.

Lemma pd_lookup_None `{EqDecision K} {V} (k : K) (d : pydict K V) :
  pd_lookup k d = None ↔ k ∉ pd_keys d.
Proof.
  unfold pd_keys. induction d as [|[k' v] d IH]; simpl.
  - split; [intros _; apply not_elem_of_nil|done].
  - rewrite not_elem_of_cons. destruct (decide (k = k')) as [->|Hne].
    + split; [done|by intros [? _]].
    + rewrite IH. tauto.
Qed.

Lemma pd_lookup_Some `{EqDecision K} {V} (k : K) (d : pydict K V) :
  k ∈ pd_keys d → ∃ v, pd_lookup k d = Some v.
Proof.
  intros Hin. destruct (pd_lookup k d) eqn:Hl; [eauto|].
  by apply pd_lookup_None in Hl.
Qed.

Lemma pd_lookup_elem_of `{EqDecision K} {V} (k : K) (v : V) (d : pydict K V) :
  pd_lookup k d = Some v → (k, v) ∈ d.
Proof.
  induction d as [|[k' v'] d IH]; simpl; [done|].
  destruct (decide (k = k')) as [->|Hne].
  - intros [= ->]. left.
  - intros Hl. right. by apply IH.
Qed.

Lemma pd_lookup_set `{EqDecision K} {V} (k : K) (v : V) (d : pydict K V) :
  pd_lookup k (pd_set k v d) = Some v.
Proof.
  induction d as [|[k' v'] d IH]; simpl.
  - by rewrite decide_True.
  - destruct (decide (k = k')) as [->|Hne]; simpl.
    + by rewrite decide_True.
    + by rewrite decide_False.
Qed.

Lemma pd_set_Forall `{EqDecision K} {V} (P : K * V → Prop) k v (d : pydict K V) :
  P (k, v) → Forall P d → Forall P (pd_set k v d).
Proof.
  intros Hkv. induction 1 as [|[k' v'] d Hx Hd IH]; simpl.
  - by apply Forall_singleton.
  - destruct (decide (k = k')) as [->|Hne]; by apply Forall_cons.
Qed.

Lemma pd_set_keys `{EqDecision K} {V} (k : K) (v : V) (d : pydict K V) x :
  x ∈ pd_keys (pd_set k v d) → x = k ∨ x ∈ pd_keys d.
Proof.
  unfold pd_keys. induction d as [|[k' v'] d IH]; simpl.
  - intros ->%list_elem_of_singleton. by left.
  - destruct (decide (k = k')) as [->|Hne]; simpl; rewrite !elem_of_cons; tauto.
Qed.

Lemma pd_set_values `{EqDecision K} {V} (k : K) (v : V) (d : pydict K V) y :
  y ∈ (pd_set k v d).*2 → y = v ∨ y ∈ d.*2.
Proof.
  induction d as [|[k' v'] d IH]; simpl.
  - intros ->%list_elem_of_singleton. by left.
  - destruct (decide (k = k')) as [->|Hne]; simpl; rewrite !elem_of_cons; tauto.
Qed.

Lemma pd_delete_Permutation `{EqDecision K} {V} (k : K) (v : V) (d : pydict K V) :
  pd_lookup k d = Some v → d ≡ₚ (k, v) :: pd_delete k d.
Proof.
  induction d as [|[k' v'] d IH]; simpl; [done|].
  destruct (decide (k = k')) as [->|Hne]; [by intros [= ->]|].
  intros Hl. rewrite (IH Hl) at 1. apply Permutation_swap.
Qed.

(** ** __setitem__ and the entries that add stores *)

(** The items of an entry made by [__setitem__]: those of the mapping, and
    [propname] and [model] where the mapping has none. *)
Lemma wrap_lookup propname model key :
  wrap propname model !! key =
  match model !! key with
  | Some v => Some v
  | None => ({[ "propname" := PyStr propname; "model" := PyNone ]} : GenericModel) !! key
  end.
Proof.
  unfold wrap, GenericModel_init, dict_update.
  rewrite (right_id_L ∅ (∪)), lookup_union.
  by destruct (model !! key), (_ !! key).
Qed.

(** The items of the dict [f] of [add]. *)
Lemma build_f_lookup model network phase geometry physics regen_mode kwargs key :
  build_f model (network, phase, geometry, physics) regen_mode kwargs !! key =
  match kwargs !! key with
  | Some v => Some v
  | None =>
      (<["model" := model]> (<["network" := network]> (<["phase" := phase]>
       (<["geometry" := geometry]> (<["physics" := physics]>
       (<["regen_mode" := PyStr regen_mode]> (∅ : GenericModel))))))) !! key
  end.
Proof.
  unfold build_f, dict_update. rewrite lookup_union.
  by destruct (kwargs !! key), (_ !! key).
Qed.

Lemma setitem_unfold propname model w :
  ModelsDict_setitem propname model w
  = (Ok tt, set_items (pd_set propname (wrap propname model) (items (self w))) w).
Proof. done. Qed.

(** ** add *)

Lemma resolve_context_state w r w' : resolve_context w = (r, w') → w' = w.
Proof.
  unfold resolve_context, getattr. py_unfold.
  repeat case_bool_decide; repeat (case_match; simplify_eq/=); congruence.
Qed.

(** What [add] does, by regeneration mode, once the context is resolved. *)
Lemma add_unfold propname model regen_mode kwargs w :
  add propname model regen_mode kwargs w =
  match resolve_context w with
  | (Ok context, _) =>
      let f := build_f model context regen_mode kwargs in
      if bool_decide (regen_mode ∈ ["static"; "deferred"; "on_demand"]) then
        ModelsDict_setitem propname f w
      else if bool_decide (regen_mode = "constant") then (Raise TypeError, w)
      else (Ok tt, w)
  | (Raise e, _) => (Raise e, w)
  end.
Proof.
  unfold add. py_unfold.
  destruct (resolve_context w) as [[context|e] w'] eqn:Hctx;
    apply resolve_context_state in Hctx as ->; [|done].
  unfold ModelsDict_setitem, OrderedDict_setitem, dict_call. py_unfold.
  destruct (decide (regen_mode = "static")) as [->|?]; [done|].
  destruct (decide (regen_mode = "constant")) as [->|?]; [done|].
  destruct (decide (regen_mode = "deferred")) as [->|?]; [done|].
  destruct (decide (regen_mode = "on_demand")) as [->|?]; [done|].
  rewrite !bool_decide_eq_false_2; [done|..]; try done;
    intros Hin; repeat (apply elem_of_cons in Hin as [?|Hin]; [done|]);
    by apply elem_of_nil in Hin.
Qed.

(** C1 (the code departs from the claim): [add(p, m, 'constant')] never
    computes the model.  It builds the plain dict [f] and calls it, which
    raises before anything is written: the call ends in an exception with
    the Registry, the Master and the log as they were, and on a plain
    [ModelsDict] the exception is [TypeError]. *)
Theorem add_constant_raises (propname : string) (model : pyval)
    (kwargs : GenericModel) :
  (∀ w, ∃ e, add propname model "constant" kwargs w = (Raise e, w)) ∧
  (∀ master,
     add propname model "constant" kwargs (ModelsDict_init master)
     = (Raise TypeError, ModelsDict_init master)).
Proof.
  split.
  - intros w. unfold add, resolve_context, getattr, dict_call. py_unfold.
    repeat case_bool_decide; try done;
      repeat (case_match; simplify_eq/=; eauto); eauto.
  - intros master. reflexivity.
Qed.

(** C6 (the code departs from the claim): the role of the Master plays no
    part in [add].  The ancestry that is inspected is that of the registry
    object, so on a [ModelsDict] every host, a geometry included, gets an
    entry whose [network] is the registry itself and whose [geometry],
    [phase] and [physics] are [None]. *)
Theorem add_binds_registry_not_master (propname : string) (model : pyval)
    (master : Host) :
  let w := ModelsDict_init master in
  let entry :=
    wrap propname (build_f model (PyRef SelfRef, PyNone, PyNone, PyNone) "static" ∅) in
  add propname model "static" ∅ w = (Ok tt, set_items [(propname, entry)] w) ∧
  entry !! "network" = Some (PyRef SelfRef) ∧
  entry !! "geometry" = Some PyNone ∧
  entry !! "phase" = Some PyNone ∧
  entry !! "physics" = Some PyNone.
Proof. simpl. split; [by rewrite add_unfold|]. by repeat split. Qed.

(** ** The propname of stored entries *)

(** C8 (counterexample to the claim as stated): the mapping is merged into
    the entry after [propname] was set, so a ['propname'] item of the
    mapping replaces the key: the entry stored under ["pore.seed"] says
    ["throat.seed"]. *)
Lemma setitem_propname_overridden :
  let spec : GenericModel :=
    {[ "model" := PyFun 0; "propname" := PyStr "throat.seed" ]} in
  let r := ModelsDict_setitem "pore.seed" spec (ModelsDict_init geometry_host) in
  r.1 = Ok tt ∧
  pd_keys (items (self r.2)) = ["pore.seed"] ∧
  (λ kv, kv.2 !! "propname") <$> items (self r.2) = [Some (PyStr "throat.seed")] ∧
  ¬ propname_is_key (items (self r.2)).
Proof.
  simpl. repeat split; try done.
  intros H. apply Forall_cons in H as [H _]. vm_compute in H. discriminate.
Qed.

(** C8 (as amended): [registry[name] = spec] stores an entry made of the
    items of [spec], with [model] defaulting to [None] and [propname] to
    [name]; when [spec] has no ['propname'] item the stored [propname] is
    [name], and a Registry whose values all carry their key keeps that
    property, under such an assignment and under every [add]. *)
Theorem setitem_propname_is_key (name : string) (spec : GenericModel) (w : World) :
  spec !! "propname" = None →
  propname_is_key (items (self w)) →
  let w' := set_items (pd_set name (wrap name spec) (items (self w))) w in
  ModelsDict_setitem name spec w = (Ok tt, w') ∧
  ModelsDict_getitem name w' = (Ok (wrap name spec), w') ∧
  wrap name spec !! "propname" = Some (PyStr name) ∧
  propname_is_key (items (self w')) ∧
  ∀ propname model regen_mode kwargs,
    add_kwargs kwargs →
    propname_is_key (items (self (add propname model regen_mode kwargs w).2)).
Proof.
  intros Hspec Hinv.
  assert (∀ n (m : GenericModel), m !! "propname" = None →
            propname_is_key (pd_set n (wrap n m) (items (self w)))) as Hset.
  { intros n m Hm. apply pd_set_Forall; [|done]. simpl.
    by rewrite wrap_lookup, Hm. }
  simpl. split; [done|]. split; [|split; [|split]].
  - unfold ModelsDict_getitem. simpl. by rewrite pd_lookup_set.
  - by rewrite wrap_lookup, Hspec.
  - by apply Hset.
  - intros propname model regen_mode kwargs (Hk & _). rewrite add_unfold.
    destruct (resolve_context w) as [[[[[network phase] geometry] physics]|e] w1];
      [|done].
    cbv zeta. repeat case_bool_decide; try done.
    apply (Hset propname (build_f model (network, phase, geometry, physics)
                                  regen_mode kwargs)).
    by rewrite build_f_lookup, Hk.
Qed.

(** C8 at work: a mapping that holds a model only. *)
Lemma setitem_propname_is_key_witness :
  let spec : GenericModel := {[ "model" := PyFun 0 ]} in
  let w := test_geometry in
  spec !! "propname" = None ∧
  propname_is_key (items (self w)) ∧
  (ModelsDict_setitem "pore.area" spec w).1 = Ok tt ∧
  wrap "pore.area" spec !! "propname" = Some (PyStr "pore.area") ∧
  propname_is_key (items (self (ModelsDict_setitem "pore.area" spec w).2)).
Proof.
  intros spec w.
  assert (spec !! "propname" = None) as H1 by reflexivity.
  assert (propname_is_key (items (self w))) as H2.
  { repeat (apply Forall_cons; split; [reflexivity|]). apply Forall_nil_2. }
  destruct (setitem_propname_is_key "pore.area" spec w H1 H2)
    as (Hset & _ & Hname & Hinv & _).
  split; [exact H1|]. split; [exact H2|]. rewrite Hset.
  split; [reflexivity|]. split; [exact Hname|exact Hinv].
Defined.

(** ** What a model is called with *)

(** C10: the entry that [add] stored is passed whole to its model, by
    [__call__] and by [regenerate] alike: the keyword arguments of the call
    are the entry, which holds [model], [regen_mode] and [propname], and
    the four context names, each with the value given in [kwargs] or else
    the resolved one, [None] included.  A model function with a fixed list
    of parameters, which refuses any other keyword with [TypeError], must
    therefore have all seven names among them, or the call raises. *)
Theorem entry_call_passes_whole_entry
    (call_fun : nat → GenericModel → World → result pyval)
    (propname : string) (f : nat) (regen_mode : string) (kwargs : GenericModel)
    (network phase geometry physics : pyval) (w : World) :
  regen_mode ∈ ["static"; "deferred"; "on_demand"] →
  add_kwargs kwargs →
  resolve_context w = (Ok (network, phase, geometry, physics), w) →
  let entry :=
    wrap propname
         (build_f (PyFun f) (network, phase, geometry, physics) regen_mode kwargs) in
  let w' := set_items (pd_set propname entry (items (self w))) w in
  add propname (PyFun f) regen_mode kwargs w = (Ok tt, w') ∧
  ModelsDict_getitem propname w' = (Ok entry, w') ∧
  GenericModel_call call_fun entry w' = (call_fun f entry w', w') ∧
  GenericModel_regenerate call_fun entry w' = (call_fun f entry w', w') ∧
  entry !! "model" = Some (PyFun f) ∧
  entry !! "regen_mode" = Some (PyStr regen_mode) ∧
  entry !! "propname" = Some (PyStr propname) ∧
  entry !! "network" = Some (default network (kwargs !! "network")) ∧
  entry !! "phase" = Some (default phase (kwargs !! "phase")) ∧
  entry !! "geometry" = Some (default geometry (kwargs !! "geometry")) ∧
  entry !! "physics" = Some (default physics (kwargs !! "physics")) ∧
  ∀ params : gset string,
    (∀ kw w0, ¬ dom kw ⊆ params → call_fun f kw w0 = Raise TypeError) →
    ¬ reserved_keys ⊆ params →
    GenericModel_regenerate call_fun entry w' = (Raise TypeError, w').
Proof.
  intros Hmode (Hk1 & Hk2 & Hk3 & _) Hctx entry w'.
  assert (entry !! "model" = Some (PyFun f)) as Hmodel.
  { unfold entry. by rewrite wrap_lookup, build_f_lookup, Hk2. }
  assert (GenericModel_regenerate call_fun entry w' = (call_fun f entry w', w'))
    as Hregen.
  { unfold GenericModel_regenerate, dict_getitem. py_unfold. by rewrite Hmodel. }
  cut (entry !! "regen_mode" = Some (PyStr regen_mode) ∧
       entry !! "propname" = Some (PyStr propname) ∧
       entry !! "network" = Some (default network (kwargs !! "network")) ∧
       entry !! "phase" = Some (default phase (kwargs !! "phase")) ∧
       entry !! "geometry" = Some (default geometry (kwargs !! "geometry")) ∧
       entry !! "physics" = Some (default physics (kwargs !! "physics"))).
  { intros (H1 & H2 & H3 & H4 & H5 & H6).
    repeat (split; [first [done | by rewrite add_unfold, Hctx; simpl;
                                     rewrite bool_decide_eq_true_2
                          | by unfold ModelsDict_getitem; simpl;
                               rewrite pd_lookup_set
                          | by unfold GenericModel_call, dict_getitem;
                               py_unfold; rewrite Hmodel]|]).
    intros params Hsig Hparams. rewrite Hregen, Hsig; [done|].
    intros Hdom. apply Hparams. intros k Hk. apply Hdom, elem_of_dom.
    unfold reserved_keys in Hk. apply elem_of_list_to_set in Hk.
    repeat (apply elem_of_cons in Hk as [->|Hk]; [by eexists|]).
    by apply elem_of_nil in Hk. }
  unfold entry.
  repeat split; rewrite wrap_lookup, build_f_lookup; try by rewrite ?Hk1, ?Hk3.
  - by destruct (kwargs !! "network").
  - by destruct (kwargs !! "phase").
  - by destruct (kwargs !! "geometry").
  - by destruct (kwargs !! "physics").
Qed.

(** C10 at work: the first model of a fresh registry. *)
Lemma entry_call_passes_whole_entry_witness :
  let w := ModelsDict_init geometry_host in
  let entry :=
    wrap "pore.seed"
         (build_f (PyFun 0) (PyRef SelfRef, PyNone, PyNone, PyNone) "static" ∅) in
  let w' := set_items [("pore.seed", entry)] w in
  add "pore.seed" (PyFun 0) "static" ∅ w = (Ok tt, w') ∧
  GenericModel_regenerate demo_fun entry w' = (demo_fun 0 entry w', w') ∧
  dom entry = reserved_keys ∧
  entry !! "phase" = Some PyNone.
Proof.
  intros w entry w'.
  destruct (entry_call_passes_whole_entry demo_fun "pore.seed" 0 "static" ∅
              (PyRef SelfRef) PyNone PyNone PyNone w)
    as (Hadd & Hget & _ & Hregen & _ & _ & _ & _ & Hphase & _ & _ & _).
  - apply list_elem_of_here.
  - by repeat split.
  - reflexivity.
  - split; [exact Hadd|]. split; [exact Hregen|].
    split; [|exact Hphase]. apply (bool_decide_unpack _). vm_compute. exact I.
Defined.

(** ** regenerate: the selection *)

(** The bound on the iterations of the on-demand loop is never what ends
    it: once the fuel covers the distance from the iterator to the end of
    the list, more fuel changes nothing. *)
Lemma on_demand_loop_fuel fuel fuel' i props w :
  (length props ≤ i + fuel)%nat → (length props ≤ i + fuel')%nat →
  on_demand_loop fuel i props w = on_demand_loop fuel' i props w.
Proof.
  revert fuel' i props w.
  induction fuel as [|fuel IH]; intros [|fuel'] i props w Hf Hf'; simpl; try done.
  - rewrite lookup_ge_None_2 by lia. done.
  - rewrite lookup_ge_None_2 by lia. done.
  - destruct (props !! i) as [item|] eqn:Hi; [|done].
    py_unfold. destruct (ModelsDict_getitem item w) as [[entry|e] w1]; [|done].
    destruct (dict_getitem entry "regen_mode") as [mode|e]; [|done].
    destruct (py_eq_str mode "on_demand"); [|apply IH; lia].
    destruct (list_remove item props) as [props'|e] eqn:Hrm; [|done].
    apply list_remove_length in Hrm. apply IH; lia.
Qed.

Lemma on_demand_loop_state fuel i props w r w' :
  on_demand_loop fuel i props w = (r, w') → w' = w.
Proof.
  revert i props. induction fuel as [|fuel IH]; intros i props; simpl.
  - by intros [= _ <-].
  - unfold ModelsDict_getitem. py_unfold.
    repeat (case_match; simplify_eq/=); try congruence; eauto.
Qed.

(** The on-demand loop, in closed form: started at index [i] with enough
    fuel, it keeps the names before [i] and lets [survivors] go over the
    rest. *)
Lemma on_demand_loop_survivors fuel i props w :
  NoDup props →
  (∀ k, k ∈ props → ∃ entry v, pd_lookup k (items (self w)) = Some entry ∧
                               entry !! "regen_mode" = Some v) →
  (length props ≤ i + fuel)%nat →
  on_demand_loop fuel i props w
  = (Ok (take i props ++ survivors (is_on_demand w) (drop i props)), w).
Proof.
  revert i props. induction fuel as [|fuel IH]; intros i props Hnd Hent Hlen; simpl.
  - rewrite take_ge, drop_ge by lia. by rewrite app_nil_r.
  - destruct (props !! i) as [item|] eqn:Hi.
    + destruct (Hent item) as (entry & v & Hentry & Hv).
      { by eapply list_elem_of_lookup_2. }
      unfold ModelsDict_getitem, dict_getitem. py_unfold. rewrite Hentry, Hv.
      rewrite (drop_S _ _ _ Hi). simpl.
      assert (is_on_demand w item = py_eq_str v "on_demand") as ->.
      { unfold is_on_demand. by rewrite Hentry, Hv. }
      destruct (py_eq_str v "on_demand").
      * rewrite (list_remove_lookup _ _ _ Hnd Hi).
        pose proof (lookup_lt_Some _ _ _ Hi) as Hlt.
        rewrite IH.
        -- destruct (drop (S i) props) as [|y rest] eqn:Hdrop.
           ++ rewrite !app_nil_r, take_ge, drop_ge; rewrite ?length_take; try lia.
              by rewrite app_nil_r.
           ++ rewrite take_app_ge, drop_app_ge; rewrite length_take; try lia.
              replace (S i - i `min` length props)%nat with 1%nat by lia.
              simpl. rewrite drop_0. by rewrite <-app_assoc.
        -- apply (sublist_NoDup _ props); [done|].
           rewrite <-(take_drop i props) at 3.
           apply sublist_app; [done|].
           rewrite (drop_S _ _ _ Hi). by apply sublist_cons.
        -- intros k Hk. apply Hent.
           rewrite <-(take_drop i props). rewrite elem_of_app in Hk |- *.
           destruct Hk as [?|Hk]; [by left|right].
           rewrite (drop_S _ _ _ Hi). by right.
        -- rewrite length_app, length_take, length_drop. lia.
      * rewrite IH; [|done..|lia].
        rewrite (take_S_r _ _ _ Hi). by rewrite <-app_assoc.
    + apply lookup_ge_None in Hi. rewrite take_ge, drop_ge by lia.
      by rewrite app_nil_r.
Qed.

(** Where no two names marked on demand follow each other, the loop does
    drop exactly the marked names. *)
Lemma survivors_filter (od : string → bool) l :
  (∀ i x y, l !! i = Some x → l !! S i = Some y → od x = true → od y = false) →
  survivors od l = filter (λ k, od k = false) l.
Proof.
  assert (∀ n l, (length l ≤ n)%nat →
            (∀ i x y, l !! i = Some x → l !! S i = Some y →
                      od x = true → od y = false) →
            survivors od l = filter (λ k, od k = false) l) as Hn;
    [|by apply (Hn (length l))].
  clear l. induction n as [|n IH]; intros [|x l] Hlen Hadj; simpl in *;
    try done; try lia.
  assert (survivors od l = filter (λ k, od k = false) l) as Hl.
  { apply IH; [lia|]. intros i a b Ha Hb. by apply (Hadj (S i)). }
  destruct (od x) eqn:Hx.
  - rewrite filter_cons_False by congruence.
    destruct l as [|y l]; [done|].
    assert (od y = false) as Hy by by apply (Hadj 0%nat x y).
    rewrite filter_cons_True by done. f_equal.
    revert Hl. simpl. rewrite Hy, filter_cons_True by done. congruence.
  - rewrite filter_cons_True by done. by rewrite Hl.
Qed.

Lemma select_state props mode w r w' : select props mode w = (r, w') → w' = w.
Proof.
  unfold select, keys. py_unfold. destruct props as [s|l].
  - case_bool_decide.
    + destruct (on_demand_loop _ _ _ w) as [[names|e] w1] eqn:Hloop;
        apply on_demand_loop_state in Hloop as ->;
        repeat (case_match; simplify_eq/=); congruence.
    + repeat (case_match; simplify_eq/=); congruence.
  - repeat (case_match; simplify_eq/=); congruence.
Qed.

(** The selection of an explicit [props] in a mode other than ['exclude']
    is [props] as it stands. *)
Lemma select_explicit l mode w :
  mode ≠ "exclude" → select (PropsList l) mode w = (Ok l, w).
Proof. intros Hm. unfold select. py_unfold. by rewrite bool_decide_eq_false_2. Qed.

(** The defaulted selection of a well-formed Registry. *)
Lemma select_default mode w :
  mode ≠ "exclude" →
  NoDup (pd_keys (items (self w))) →
  Forall (λ kv, is_Some (kv.2 !! "regen_mode")) (items (self w)) →
  select (PropsStr "") mode w
  = (Ok (survivors (is_on_demand w) (pd_keys (items (self w)))), w).
Proof.
  intros Hm Hnd Hmodes. unfold select, keys. py_unfold. simpl.
  rewrite on_demand_loop_survivors; [| done | | lia].
  - by rewrite bool_decide_eq_false_2.
  - intros k Hk. destruct (pd_lookup_Some _ _ Hk) as [entry Hentry].
    rewrite Forall_forall in Hmodes.
    destruct (Hmodes _ (pd_lookup_elem_of _ _ _ Hentry)) as [v Hv]. eauto.
Qed.

(** It is the keys that are not on demand when no two on-demand entries
    are neighbours in the Registry. *)
Lemma select_default_filter mode w :
  mode ≠ "exclude" →
  NoDup (pd_keys (items (self w))) →
  Forall (λ kv, is_Some (kv.2 !! "regen_mode")) (items (self w)) →
  (∀ i x y, pd_keys (items (self w)) !! i = Some x →
            pd_keys (items (self w)) !! S i = Some y →
            is_on_demand w x = true → is_on_demand w y = false) →
  select (PropsStr "") mode w
  = (Ok (filter (λ k, is_on_demand w k = false) (pd_keys (items (self w)))), w).
Proof.
  intros Hm Hnd Hmodes Hadj.
  by rewrite select_default, survivors_filter.
Qed.

Lemma remove_loop_Ok props temp r :
  remove_loop props temp = Ok r → ∀ x, x ∈ props → x ∈ temp.
Proof.
  revert temp. induction props as [|item rest IH]; intros temp; simpl.
  - intros _ x Hx. by apply elem_of_nil in Hx.
  - py_unfold. destruct (list_remove item temp) as [temp'|e] eqn:Hrm; [|done].
    apply list_remove_Permutation in Hrm. intros Hrest x Hx.
    rewrite Hrm. apply elem_of_cons in Hx as [->|Hx]; [left|right; eauto].
Qed.

Lemma remove_loop_error props temp e :
  remove_loop props temp = Raise e → e = ValueError.
Proof.
  revert temp. induction props as [|item rest IH]; intros temp; simpl; [done|].
  py_unfold. destruct (list_remove item temp) as [temp'|e'] eqn:Hrm; [apply IH|].
  intros [= <-]. by apply list_remove_error in Hrm.
Qed.

(** C2 (the code departs from the claim): with two on-demand models next
    to each other in the Registry, [regenerate()] drops the first from the
    defaulted selection and steps over the second, which it then runs: the
    Master gets a value for ["throat.seed"] although that model is
    on-demand and was not named. *)
Theorem regenerate_default_runs_on_demand :
  let w := two_on_demand in
  let r := regenerate demo_fun (PropsStr "") "inclusive" w in
  pd_keys (items (self w)) = ["pore.seed"; "throat.seed"] ∧
  (λ kv, kv.2 !! "regen_mode") <$> items (self w)
    = [Some (PyStr "on_demand"); Some (PyStr "on_demand")] ∧
  host_data (_master w) !! "throat.seed" = None ∧
  r.1 = Ok tt ∧
  host_data (_master r.2) !! "throat.seed" = Some (PyInt 10) ∧
  logger r.2 = [(INFO, header); (INFO, "0 : throat.seed")].
Proof. vm_compute. by repeat split. Qed.

(** ** regenerate: the run *)

Section regenerate.
Variable call_fun : nat → GenericModel → World → result pyval.

Lemma GenericModel_regenerate_state entry w r w' :
  GenericModel_regenerate call_fun entry w = (r, w') → w' = w.
Proof.
  unfold GenericModel_regenerate, py_call. py_unfold.
  repeat (case_match; simplify_eq/=); congruence.
Qed.

(** One turn of the final loop on a name that is a key. *)
Lemma regenerate_loop_key item rest count entry w :
  pd_lookup item (items (self w)) = Some entry →
  regenerate_loop call_fun (item :: rest) count w =
  match GenericModel_regenerate call_fun entry w with
  | (Ok value, _) =>
      regenerate_loop call_fun rest (S count)
        (add_log INFO (pretty count +:+ " : " +:+ item)
                 (set_master_item item value w))
  | (Raise e, _) => (Raise e, w)
  end.
Proof.
  intros Hentry. simpl. unfold keys, ModelsDict_getitem. py_unfold.
  rewrite bool_decide_eq_true_2, Hentry.
  - destruct (GenericModel_regenerate call_fun entry w) as [[value|e] w1] eqn:Hr;
      by apply GenericModel_regenerate_state in Hr as ->.
  - apply dec_stable. intros Hnin. apply pd_lookup_None in Hnin. congruence.
Qed.

(** One turn of the final loop on a name that is no key. *)
Lemma regenerate_loop_no_key item rest count w :
  item ∉ pd_keys (items (self w)) →
  regenerate_loop call_fun (item :: rest) count w =
  regenerate_loop call_fun rest count
    (add_log WARNING ("Requested proptery is not a dynamic model: " +:+ item) w).
Proof.
  intros Hnin. simpl. unfold keys. py_unfold.
  by rewrite bool_decide_eq_false_2.
Qed.

Lemma regenerate_loop_self props count w r w' :
  regenerate_loop call_fun props count w = (r, w') → self w' = self w.
Proof.
  revert count w. induction props as [|item rest IH]; intros count w.
  - by intros [= _ <-].
  - destruct (pd_lookup item (items (self w))) as [entry|] eqn:Hentry.
    + rewrite (regenerate_loop_key _ _ _ _ _ Hentry).
      destruct (GenericModel_regenerate call_fun entry w) as [[value|e] w1].
      * intros Hrest. by apply IH in Hrest.
      * by intros [= _ <-].
    + apply pd_lookup_None in Hentry.
      rewrite (regenerate_loop_no_key _ _ _ _ Hentry).
      intros Hrest. by apply IH in Hrest.
Qed.

(** The loop over [l1 ++ l2] is the loop over [l1] followed, when that one
    ends well, by the loop over [l2] with the counter where [l1] left it. *)
Lemma regenerate_loop_app l1 l2 count w :
  match regenerate_loop call_fun l1 count w with
  | (Ok _, w1) =>
      ∃ count', regenerate_loop call_fun (l1 ++ l2) count w
                = regenerate_loop call_fun l2 count' w1
  | (Raise e, w1) =>
      regenerate_loop call_fun (l1 ++ l2) count w = (Raise e, w1)
  end.
Proof.
  revert count w. induction l1 as [|item rest IH]; intros count w.
  - simpl. by exists count.
  - rewrite <-app_comm_cons.
    destruct (pd_lookup item (items (self w))) as [entry|] eqn:Hentry.
    + rewrite !(regenerate_loop_key _ _ _ _ _ Hentry).
      destruct (GenericModel_regenerate call_fun entry w) as [[value|e] w1];
        [apply IH|done].
    + apply pd_lookup_None in Hentry.
      rewrite !(regenerate_loop_no_key _ _ _ _ Hentry). apply IH.
Qed.

Lemma regenerate_self props mode w r w' :
  regenerate call_fun props mode w = (r, w') → self w' = self w.
Proof.
  unfold regenerate, logger_info. py_unfold.
  destruct (select props mode w) as [[names|e] w1] eqn:Hsel;
    apply select_state in Hsel as ->; [|by intros [= _ <-]].
  intros Hloop. by apply regenerate_loop_self in Hloop.
Qed.

End regenerate.

(** The final loop writes the Master at the names it is given only. *)
Lemma regenerate_loop_other call_fun props count w r w' k :
  regenerate_loop call_fun props count w = (r, w') → k ∉ props →
  host_data (_master w') !! k = host_data (_master w) !! k.
Proof.
  revert count w. induction props as [|item rest IH]; intros count w.
  - by intros [= _ <-].
  - intros Hloop [Hne Hk]%not_elem_of_cons. revert Hloop.
    destruct (pd_lookup item (items (self w))) as [entry|] eqn:Hentry.
    + rewrite (regenerate_loop_key _ _ _ _ _ _ Hentry).
      destruct (GenericModel_regenerate call_fun entry w) as [[value|e] w1].
      * intros Hrest. rewrite (IH _ _ Hrest Hk). simpl.
        by rewrite lookup_insert_ne.
      * by intros [= _ <-].
    + apply pd_lookup_None in Hentry.
      rewrite (regenerate_loop_no_key _ _ _ _ _ Hentry).
      intros Hrest. by rewrite (IH _ _ Hrest Hk).
Qed.

(** C9: in mode ['exclude'] a name of [props] that is no Registry key makes
    [regenerate] raise ([ValueError], from [temp.remove]) while the
    selection is built: nothing has run, the Master and the log are
    untouched.  In mode ['inclusive'] the same name alone gives a warning
    and a normal return. *)
Theorem regenerate_exclude_unknown_raises
    (call_fun : nat → GenericModel → World → result pyval)
    (props : props_arg) (x : string) (w : World) :
  x ∈ named props → x ∉ pd_keys (items (self w)) →
  regenerate call_fun props "exclude" w = (Raise ValueError, w) ∧
  regenerate call_fun (PropsList [x]) "inclusive" w
  = (Ok tt, add_log WARNING ("Requested proptery is not a dynamic model: " +:+ x)
                    (add_log INFO header w)).
Proof.
  intros Hx Hnin. split.
  - assert (select props "exclude" w = (Raise ValueError, w)) as Hsel.
    { assert (select props "exclude" w
              = (remove_loop (named props) (pd_keys (items (self w))), w)) as ->.
      { unfold select, named, keys in *. py_unfold.
        destruct props as [s|l]; [|done].
        destruct (decide (s = "")) as [->|Hs]; [by apply elem_of_nil in Hx|].
        by rewrite !bool_decide_eq_false_2 by done. }
      destruct (remove_loop _ _) as [r|e] eqn:Hrm.
      - destruct Hnin. eapply remove_loop_Ok; eauto.
      - by apply remove_loop_error in Hrm as ->. }
    unfold regenerate. by rewrite (bind_Raise _ _ _ _ _ Hsel).
  - unfold regenerate.
    rewrite (bind_Ok _ _ _ _ _ (select_explicit [x] "inclusive" w ltac:(done))).
    unfold logger_info, modify. py_unfold.
    by rewrite regenerate_loop_no_key.
Qed.

(** C9 at work: ["pore.area"] is no key of the registry of the docstring. *)
Lemma regenerate_exclude_unknown_raises_witness :
  ("pore.area" ∈ named (PropsList ["pore.seed"; "pore.area"])) ∧
  ("pore.area" ∉ pd_keys (items (self test_geometry))) ∧
  (regenerate demo_fun (PropsList ["pore.seed"; "pore.area"]) "exclude" test_geometry
   = (Raise ValueError, test_geometry)).
Proof.
  assert ("pore.area" ∈ named (PropsList ["pore.seed"; "pore.area"])) as H1.
  { simpl. apply list_elem_of_further, list_elem_of_here. }
  assert ("pore.area" ∉ pd_keys (items (self test_geometry))) as H2.
  { apply (bool_decide_unpack _). vm_compute. exact I. }
  split; [exact H1|]. split; [exact H2|].
  exact (proj1 (regenerate_exclude_unknown_raises demo_fun _ _ _ H1 H2)).
Defined.

(** C7: when the model of a selected key raises, [regenerate] ends with
    that very exception in the state reached after the keys selected before
    it: their writes into the Master are kept, the Master is as before at
    every other name (the failing key and the keys after it included), and
    the Registry is the one before the call. *)
Theorem regenerate_failure_is_partial
    (call_fun : nat → GenericModel → World → result pyval)
    (props : props_arg) (mode : string) (done_ rest : list string)
    (item : string) (entry : GenericModel) (e : exn) (w w1 : World) :
  select props mode w = (Ok (done_ ++ item :: rest), w) →
  regenerate_loop call_fun done_ 0 (add_log INFO header w) = (Ok tt, w1) →
  pd_lookup item (items (self w)) = Some entry →
  GenericModel_regenerate call_fun entry w1 = (Raise e, w1) →
  regenerate call_fun props mode w = (Raise e, w1) ∧
  self w1 = self w ∧
  ∀ k, k ∉ done_ → host_data (_master w1) !! k = host_data (_master w) !! k.
Proof.
  intros Hsel Hdone Hentry Hraise.
  pose proof (regenerate_loop_self _ _ _ _ _ _ Hdone) as Hself.
  split; [|split; [done|]].
  - unfold regenerate. rewrite (bind_Ok _ _ _ _ _ Hsel).
    unfold logger_info, modify. py_unfold.
    pose proof (regenerate_loop_app call_fun done_ (item :: rest) 0
                  (add_log INFO header w)) as Happ.
    rewrite Hdone in Happ. destruct Happ as [count' ->].
    rewrite (regenerate_loop_key _ _ _ _ entry); [by rewrite Hraise|].
    by rewrite Hself.
  - intros k Hk. by rewrite (regenerate_loop_other _ _ _ _ _ _ _ Hdone Hk).
Qed.

(** C7 at work: the second of three models fails in a full regenerate; the
    first value is stored, the third is not. *)
Lemma regenerate_failure_is_partial_witness :
  let w := failing_models in
  let entry :=
    wrap "pore.volume"
         (build_f (PyFun 2) (PyRef SelfRef, PyNone, PyNone, PyNone) "static" ∅) in
  let w1 := (regenerate_loop demo_fun ["pore.seed"] 0 (add_log INFO header w)).2 in
  regenerate demo_fun (PropsStr "") "inclusive" w
    = (Raise (ModelError (PyStr "boom")), w1) ∧
  self w1 = self w ∧
  host_data (_master w1) !! "pore.seed" = Some (PyInt 10) ∧
  host_data (_master w1) !! "throat.seed" = None.
Proof.
  intros w entry w1.
  destruct (regenerate_failure_is_partial demo_fun (PropsStr "") "inclusive"
              ["pore.seed"] ["throat.seed"] "pore.volume" entry
              (ModelError (PyStr "boom")) w w1) as (Hr & Hself & _).
  - vm_compute. reflexivity.
  - vm_compute. reflexivity.
  - vm_compute. reflexivity.
  - vm_compute. reflexivity.
  - split; [exact Hr|]. split; [exact Hself|]. vm_compute. by split.
Defined.

(** C3: with an explicit selection in mode ['inclusive'], [regenerate]
    does not run the entries in Registry order.  The Registry order is
    ["pore.seed"], ["pore.diameter"], and the diameter model reads the
    seed.  Asked for [['pore.diameter', 'pore.seed']], [regenerate] runs
    the diameter first, on the old seed 0, and stores 1, then the seed; it
    logs the two names in that order.  A run in Registry order, the order
    of regeneration according to the docstrings of [add] and [reorder] and
    the order of the defaulted selection, refreshes the seed to 10 first
    and stores 11 as diameter. *)
Lemma regenerate_not_in_registry_order :
  let w := dependent_models in
  let props := ["pore.diameter"; "pore.seed"] in
  let ks := pd_keys (items (self w)) in
  let r := regenerate demo_fun (PropsList props) "inclusive" w in
  let r' := (logger_info header ≫= λ _,
             regenerate_loop demo_fun (registry_order props ks) 0) w in
  ks = ["pore.seed"; "pore.diameter"] ∧
  r.1 = Ok tt ∧
  logger r.2 = [(INFO, header); (INFO, "0 : pore.diameter"); (INFO, "1 : pore.seed")] ∧
  host_data (_master r.2) !! "pore.diameter" = Some (PyInt 1) ∧
  logger r'.2 = [(INFO, header); (INFO, "0 : pore.seed"); (INFO, "1 : pore.diameter")] ∧
  host_data (_master r'.2) !! "pore.diameter" = Some (PyInt 11) ∧
  r ≠ r'.
Proof. vm_compute. repeat split; try done. Qed.

(** ** reorder *)

Lemma remove_loop_total names order :
  NoDup names → (∀ x, x ∈ names → x ∈ order) →
  ∃ order', remove_loop names order = Ok order' ∧ ∀ x, x ∈ order' → x ∈ order.
Proof.
  revert order. induction names as [|item rest IH]; intros order Hnd Hsub.
  - by exists order.
  - apply NoDup_cons in Hnd as [Hnin Hnd]. simpl.
    destruct (list_remove_Ok item order) as [order1 Hrm]; [apply Hsub; left|].
    rewrite Hrm. py_unfold.
    pose proof (list_remove_Permutation _ _ _ Hrm) as Hperm.
    destruct (IH order1 Hnd) as (order' & Hloop & Hsub').
    + intros x Hx. assert (x ∈ item :: order1) as Hin.
      { rewrite <-Hperm. apply Hsub. by right. }
      apply elem_of_cons in Hin as [->|Hin]; done.
    + exists order'. split; [done|]. intros x Hx. rewrite Hperm. right. eauto.
Qed.

(** The inverse dict has target indices as keys and names as values. *)
Lemma invert_sound (new_order : pydict string Z) :
  (∀ i, i ∈ pd_keys (invert new_order) → i ∈ new_order.*2) ∧
  (∀ k, k ∈ (invert new_order).*2 → k ∈ new_order.*1).
Proof.
  unfold invert.
  cut (∀ acc : pydict Z string,
         (∀ i, i ∈ pd_keys (foldl (λ d kv, pd_set kv.2 kv.1 d) acc new_order) →
               i ∈ pd_keys acc ∨ i ∈ new_order.*2) ∧
         (∀ k, k ∈ (foldl (λ d kv, pd_set kv.2 kv.1 d) acc new_order).*2 →
               k ∈ acc.*2 ∨ k ∈ new_order.*1)).
  { intros H. destruct (H []) as [H1 H2]. split.
    - intros i Hi. destruct (H1 i Hi) as [Hnil|]; [|done].
      by apply elem_of_nil in Hnil.
    - intros k Hk. destruct (H2 k Hk) as [Hnil|]; [|done].
      by apply elem_of_nil in Hnil. }
  induction new_order as [|[k v] rest IH]; intros acc; simpl.
  - split; intros; by left.
  - destruct (IH (pd_set v k acc)) as [H1 H2]. split.
    + intros i Hi. destruct (H1 i Hi) as [Hset|Hrest].
      * apply pd_set_keys in Hset as [->|?]; [right; left|by left].
      * right. by right.
    + intros k' Hk. destruct (H2 k' Hk) as [Hset|Hrest].
      * apply pd_set_values in Hset as [->|?]; [right; left|by left].
      * right. by right.
Qed.

Lemma insert_loop_total ks (inv_dict : pydict Z string) order :
  (∀ i, i ∈ ks → - PY_SSIZE_T_MAX - 1 ≤ i ≤ PY_SSIZE_T_MAX ∧ i ∈ pd_keys inv_dict) →
  ∃ order', insert_loop ks inv_dict order = Ok order' ∧
    ∀ x, x ∈ order' → x ∈ order ∨ x ∈ inv_dict.*2.
Proof.
  revert order. induction ks as [|item rest IH]; intros order Hks; simpl.
  - exists order. split; [done|]. by left.
  - destruct (Hks item) as [Hrange Hkey]; [left|].
    destruct (pd_lookup_Some _ _ Hkey) as [name Hname]. rewrite Hname.
    destruct (list_insert_at_Ok item name order Hrange) as (order1 & -> & Hperm).
    py_unfold. destruct (IH order1) as (order' & -> & Hsub).
    { intros i Hi. apply Hks. by right. }
    exists order'. split; [done|]. intros x Hx.
    destruct (Hsub x Hx) as [Hin|?]; [|by right].
    rewrite Hperm in Hin. apply elem_of_cons in Hin as [->|?]; [right|by left].
    apply pd_lookup_elem_of in Hname.
    apply list_elem_of_fmap. by exists (item, name).
Qed.

Lemma move_loop_total order w :
  (∀ x, x ∈ order → x ∈ pd_keys (items (self w))) →
  ∃ w', move_loop order w = (Ok tt, w') ∧
    items (self w') ≡ₚ items (self w) ∧
    _master w' = _master w ∧ logger w' = logger w.
Proof.
  revert w. induction order as [|item rest IH]; intros w Hsub; simpl.
  - by exists w.
  - destruct (pd_lookup_Some item (items (self w))) as [v Hv]; [apply Hsub; left|].
    unfold ModelsDict_move_to_end, pd_move_to_end. py_unfold. rewrite Hv.
    pose proof (pd_delete_Permutation _ _ _ Hv) as Hperm.
    set (w1 := set_items (pd_delete item (items (self w)) ++ [(item, v)]) w).
    assert (items (self w1) ≡ₚ items (self w)) as Hperm1.
    { simpl. by rewrite Hperm at 2; rewrite <-Permutation_cons_append. }
    destruct (IH w1) as (w' & -> & Hitems & Hmaster & Hlog).
    { intros x Hx. unfold pd_keys. rewrite Hperm1. apply Hsub. by right. }
    exists w'. split; [done|]. split; [by rewrite Hitems|]. by split.
Qed.

(** C4 (the code departs from the claim): on the example of the docstring
    the assignments are processed in the order they were supplied, index 1
    before index 0, and the result is not the documented
    [['throat.length', 'pore.seed', 'throat.seed']], which is what
    ascending order of target index gives. *)
Theorem reorder_docstring_example :
  let w := test_geometry in
  let new_order := [("pore.seed", 1); ("throat.length", 0)] in
  let r := reorder new_order w in
  pd_keys (items (self w)) = ["pore.seed"; "throat.seed"; "throat.length"] ∧
  r.1 = Ok tt ∧
  pd_keys (items (self r.2)) = ["throat.length"; "throat.seed"; "pore.seed"] ∧
  reorder_spec new_order (pd_keys (items (self w)))
    = ["throat.length"; "pore.seed"; "throat.seed"].
Proof. vm_compute. by repeat split. Qed.

(** C5 (as amended): with distinct names that are Registry keys and target
    indices that the runtime accepts as indices, [reorder] returns
    normally, whatever the indices (equal, negative or past the end): the
    Registry holds the very items it held, every key with its entry, in
    some order, and the Master and the log are untouched. *)
Theorem reorder_keeps_items (new_order : pydict string Z) (w : World) :
  NoDup (pd_keys new_order) →
  (∀ k, k ∈ pd_keys new_order → k ∈ pd_keys (items (self w))) →
  Forall (λ kv, - PY_SSIZE_T_MAX - 1 ≤ kv.2 ≤ PY_SSIZE_T_MAX) new_order →
  ∃ w', reorder new_order w = (Ok tt, w') ∧
    items (self w') ≡ₚ items (self w) ∧
    _master w' = _master w ∧ logger w' = logger w.
Proof.
  intros Hnd Hkeys Hrange. unfold reorder, keys. py_unfold.
  destruct (remove_loop_total _ _ Hnd Hkeys) as (order1 & -> & Hsub1).
  destruct (invert_sound new_order) as [Hinv_keys Hinv_values].
  destruct (insert_loop_total (pd_keys (invert new_order)) (invert new_order) order1)
    as (order2 & -> & Hsub2).
  { intros i Hi. split; [|done].
    apply Hinv_keys, list_elem_of_fmap in Hi as ([k v] & -> & Hkv).
    rewrite Forall_forall in Hrange. apply (Hrange _ Hkv). }
  apply move_loop_total. intros x Hx.
  destruct (Hsub2 x Hx) as [?|Hval]; [by apply Hsub1|].
  by apply Hkeys, Hinv_values.
Qed.

(** C5 at work: two equal indices and one far below the range. *)
Lemma reorder_keeps_items_witness :
  let new_order := [("pore.seed", 1); ("throat.seed", 1); ("throat.length", -7)] in
  ∃ w', reorder new_order test_geometry = (Ok tt, w') ∧
    pd_keys (items (self w')) = ["pore.seed"; "throat.length"; "throat.seed"] ∧
    items (self w') ≡ₚ items (self test_geometry).
Proof.
  intros new_order.
  destruct (reorder_keeps_items new_order test_geometry)
    as (w' & Hr & Hperm & _).
  - apply (bool_decide_unpack _). vm_compute. exact I.
  - intros k Hk. apply (bool_decide_unpack _).
    repeat (apply elem_of_cons in Hk as [->|Hk]; [vm_compute; exact I|]).
    by apply elem_of_nil in Hk.
  - repeat (apply Forall_cons; split; [by vm_compute|]). apply Forall_nil_2.
  - exists w'. split; [exact Hr|]. split; [|exact Hperm].
    assert (w' = (reorder new_order test_geometry).2) as -> by by rewrite Hr.
    vm_compute. reflexivity.
Defined.

(** C5 (counterexample to the claim as stated): the index -1 is below the
    range and is not clamped to 0; it counts from the end of the remaining
    sequence, so ["pore.seed"] lands between the two other keys and not in
    front. *)
Lemma reorder_negative_index_not_clamped :
  let w := test_geometry in
  let new_order := [("pore.seed", -1)] in
  let r := reorder new_order w in
  pd_keys (items (self w)) = ["pore.seed"; "throat.seed"; "throat.length"] ∧
  r.1 = Ok tt ∧
  pd_keys (items (self r.2)) = ["throat.seed"; "pore.seed"; "throat.length"] ∧
  reorder_spec new_order (pd_keys (items (self w)))
    = ["pore.seed"; "throat.seed"; "throat.length"] ∧
  pd_keys (items (self r.2)) ≠ reorder_spec new_order (pd_keys (items (self w))).
Proof. vm_compute. by repeat split. Qed.

(** * Further properties of the methods *)

(** ** Concrete facts used in the examples *)

Ltac by_compute := apply (bool_decide_unpack _); vm_compute; exact I.

Lemma mixed_models_no_neighbours i x y :
  pd_keys (items (self mixed_models)) !! i = Some x →
  pd_keys (items (self mixed_models)) !! S i = Some y →
  is_on_demand mixed_models x = true → is_on_demand mixed_models y = false.
Proof.
  destruct i as [|[|[|i]]]; simpl; intros [= <-] Hy; try discriminate Hy;
    injection Hy as <-; vm_compute; congruence.
Defined.

Lemma test_geometry_modes :
  Forall (λ kv, ∃ s, kv.2 !! "regen_mode" = Some (PyStr s))
         (items (self test_geometry)).
Proof.
  repeat (apply Forall_cons; split; [by exists "static"|]). apply Forall_nil_2.
Defined.

Lemma test_geometry_names (names : list string) :
  bool_decide (names ⊆ pd_keys (items (self test_geometry))) = true →
  ∀ k, k ∈ names → k ∈ pd_keys (items (self test_geometry)).
Proof. intros H k Hk. by apply (bool_decide_eq_true_1 _ H). Defined.

(** ** More on lists and the selection loops *)

Lemma filter_all {A} (P : A → Prop) `{∀ x, Decision (P x)} (l : list A) :
  (∀ x, x ∈ l → P x) → filter P l = l.
Proof.
  induction l as [|x l IH]; intros HP; [done|].
  rewrite filter_cons_True by (apply HP; left).
  f_equal. apply IH. intros y Hy. apply HP. by right.
Qed.

Lemma list_remove_filter x l :
  NoDup l → x ∈ l → list_remove x l = Ok (filter (λ y, y ≠ x) l).
Proof.
  induction l as [|y l IH]; intros Hnd Hin; [by apply elem_of_nil in Hin|].
  apply NoDup_cons in Hnd as [Hnin Hnd]. simpl.
  destruct (decide (x = y)) as [->|Hne].
  - rewrite filter_cons_False by (by intros []).
    rewrite filter_all; [done|]. intros z Hz ->. done.
  - apply elem_of_cons in Hin as [?|Hin]; [done|].
    rewrite (IH Hnd Hin). py_unfold.
    by rewrite filter_cons_True by done.
Qed.

Lemma remove_loop_filter props temp :
  NoDup temp → NoDup props → (∀ x, x ∈ props → x ∈ temp) →
  remove_loop props temp = Ok (filter (λ k, k ∉ props) temp).
Proof.
  revert temp. induction props as [|item rest IH]; intros temp Hnt Hnp Hsub; simpl.
  - rewrite filter_all; [done|]. intros x _. apply not_elem_of_nil.
  - apply NoDup_cons in Hnp as [Hnin Hnp].
    rewrite list_remove_filter by (done || apply Hsub; left). py_unfold.
    rewrite IH.
    + rewrite list_filter_filter. f_equal. apply list_filter_iff.
      intros x. rewrite not_elem_of_cons. tauto.
    + by apply NoDup_filter.
    + done.
    + intros x Hx. apply list_elem_of_filter. split; [by intros ->|].
      apply Hsub. by right.
Qed.

Lemma remove_loop_Permutation props temp r :
  remove_loop props temp = Ok r → temp ≡ₚ props ++ r.
Proof.
  revert temp. induction props as [|item rest IH]; intros temp; simpl.
  - by intros [= ->].
  - py_unfold. destruct (list_remove item temp) as [temp'|e] eqn:Hrm; [|done].
    intros Hrest. rewrite (list_remove_Permutation _ _ _ Hrm).
    by rewrite (IH _ Hrest).
Qed.

Lemma filter_ext_elem {A} (P Q : A → Prop) `{∀ x, Decision (P x)}
    `{∀ x, Decision (Q x)} (l : list A) :
  (∀ x, x ∈ l → P x ↔ Q x) → filter P l = filter Q l.
Proof.
  induction l as [|x l IH]; intros HPQ; [done|].
  rewrite !filter_cons. rewrite IH by (intros y Hy; apply HPQ; by right).
  destruct (decide (P x)) as [HP|HP], (decide (Q x)) as [HQ|HQ]; try done.
  - destruct HQ. apply HPQ; [left|done].
  - destruct HP. apply HPQ; [left|done].
Qed.

(** ** regenerate: what is selected and what is written *)

(** The final loop writes the Master at Registry keys only. *)
Lemma regenerate_loop_non_key call_fun props count w r w' k :
  regenerate_loop call_fun props count w = (r, w') →
  k ∉ pd_keys (items (self w)) →
  host_data (_master w') !! k = host_data (_master w) !! k.
Proof.
  revert count w. induction props as [|item rest IH]; intros count w.
  - by intros [= _ <-].
  - intros Hloop Hk. revert Hloop.
    destruct (pd_lookup item (items (self w))) as [entry|] eqn:Hentry.
    + rewrite (regenerate_loop_key _ _ _ _ _ _ Hentry).
      destruct (GenericModel_regenerate call_fun entry w) as [[value|e] w1].
      * intros Hrest. rewrite (IH _ _ Hrest Hk). simpl.
        apply lookup_insert_ne. intros ->.
        apply Hk, list_elem_of_fmap. exists (k, entry).
        split; [done|]. by apply pd_lookup_elem_of.
      * by intros [= _ <-].
    + apply pd_lookup_None in Hentry.
      rewrite (regenerate_loop_no_key _ _ _ _ _ Hentry).
      intros Hrest. by rewrite (IH _ _ Hrest Hk).
Qed.

Lemma regenerate_of_selection call_fun props mode names w :
  select props mode w = (Ok names, w) →
  regenerate call_fun props mode w
  = regenerate call_fun (PropsList names) "inclusive" w.
Proof.
  intros Hsel. unfold regenerate.
  rewrite (bind_Ok _ _ _ _ _ Hsel).
  by rewrite (bind_Ok _ _ _ _ _ (select_explicit names "inclusive" w ltac:(done))).
Qed.

(** X1: [regenerate] with an explicit selection in mode ['inclusive'] never
    changes the Registry, and whatever its outcome it leaves the Master as
    it was at every name that is not selected and at every name that is
    no Registry key. *)
Theorem regenerate_inclusive_frame
    (call_fun : nat → GenericModel → World → result pyval)
    (props : list string) (w : World) :
  let w' := (regenerate call_fun (PropsList props) "inclusive" w).2 in
  self w' = self w ∧
  ∀ k, k ∉ props ∨ k ∉ pd_keys (items (self w)) →
       host_data (_master w') !! k = host_data (_master w) !! k.
Proof.
  simpl. destruct (regenerate call_fun (PropsList props) "inclusive" w)
    as [r w'] eqn:Hr. simpl.
  split; [by apply regenerate_self in Hr|].
  revert Hr. unfold regenerate.
  rewrite (bind_Ok _ _ _ _ _ (select_explicit props "inclusive" w ltac:(done))).
  unfold logger_info, modify. py_unfold. intros Hloop k [Hk|Hk].
  - by rewrite (regenerate_loop_other _ _ _ _ _ _ _ Hloop Hk).
  - by rewrite (regenerate_loop_non_key _ _ _ _ _ _ _ Hloop Hk).
Qed.

(** X1 at work. *)
Lemma regenerate_inclusive_frame_witness :
  let w := dependent_models in
  let w' := (regenerate demo_fun (PropsList ["pore.diameter"; "pore.area"])
               "inclusive" w).2 in
  self w' = self w ∧
  host_data (_master w') !! "pore.seed" = host_data (_master w) !! "pore.seed" ∧
  host_data (_master w') !! "pore.area" = host_data (_master w) !! "pore.area".
Proof.
  intros w w'.
  destruct (regenerate_inclusive_frame demo_fun ["pore.diameter"; "pore.area"] w)
    as [Hself Hframe].
  split; [exact Hself|]. split.
  - apply Hframe. left. by_compute.
  - apply Hframe. right. by_compute.
Defined.

(** X2: in mode ['exclude'], with distinct names that are all Registry
    keys, [regenerate] does what mode ['inclusive'] does on the other
    keys taken in Registry order; on-demand entries are among them. *)
Theorem regenerate_exclude_is_complement
    (call_fun : nat → GenericModel → World → result pyval)
    (props : list string) (w : World) :
  NoDup (pd_keys (items (self w))) →
  NoDup props →
  (∀ x, x ∈ props → x ∈ pd_keys (items (self w))) →
  regenerate call_fun (PropsList props) "exclude" w
  = regenerate call_fun
      (PropsList (filter (λ k, k ∉ props) (pd_keys (items (self w)))))
      "inclusive" w.
Proof.
  intros Hnk Hnp Hsub. apply regenerate_of_selection.
  unfold select, keys. py_unfold. simpl.
  by rewrite remove_loop_filter.
Qed.

(** X2 at work. *)
Lemma regenerate_exclude_is_complement_witness :
  regenerate const_fun (PropsList ["throat.seed"]) "exclude" test_geometry
  = regenerate const_fun (PropsList ["pore.seed"; "throat.length"])
      "inclusive" test_geometry.
Proof.
  rewrite (regenerate_exclude_is_complement const_fun ["throat.seed"] test_geometry).
  - vm_compute. reflexivity.
  - by_compute.
  - by_compute.
  - intros x Hx. apply list_elem_of_singleton in Hx as ->. by_compute.
Defined.

(** X3: in mode ['exclude'] a list that names a key twice makes
    [regenerate] raise [ValueError] (the second [temp.remove] finds
    nothing) before anything has run. *)
Theorem regenerate_exclude_duplicate_raises
    (call_fun : nat → GenericModel → World → result pyval)
    (props : list string) (w : World) :
  NoDup (pd_keys (items (self w))) →
  ¬ NoDup props →
  regenerate call_fun (PropsList props) "exclude" w = (Raise ValueError, w).
Proof.
  intros Hnk Hdup. unfold regenerate.
  apply bind_Raise. unfold select, keys. py_unfold. simpl.
  destruct (remove_loop props _) as [r|e] eqn:Hrm.
  - destruct Hdup. apply remove_loop_Permutation in Hrm.
    rewrite Hrm in Hnk. by apply NoDup_app in Hnk as [? _].
  - by apply remove_loop_error in Hrm as ->.
Qed.

(** X3 at work. *)
Lemma regenerate_exclude_duplicate_raises_witness :
  regenerate const_fun (PropsList ["pore.seed"; "pore.seed"]) "exclude"
    test_geometry = (Raise ValueError, test_geometry).
Proof.
  apply regenerate_exclude_duplicate_raises.
  - by_compute.
  - by_compute.
Defined.

(** X4: [regenerate()] with no arguments runs the keys that the
    on-demand loop leaves: going through the keys in Registry order, an
    on-demand key is dropped and the key right after it is kept without
    being examined. *)
Theorem regenerate_default_closed_form
    (call_fun : nat → GenericModel → World → result pyval) (w : World) :
  NoDup (pd_keys (items (self w))) →
  Forall (λ kv, is_Some (kv.2 !! "regen_mode")) (items (self w)) →
  regenerate call_fun (PropsStr "") "inclusive" w
  = regenerate call_fun
      (PropsList (survivors (is_on_demand w) (pd_keys (items (self w)))))
      "inclusive" w.
Proof.
  intros Hnd Hmodes. apply regenerate_of_selection.
  by apply select_default.
Qed.

(** X4 at work. *)
Lemma regenerate_default_closed_form_witness :
  regenerate demo_fun (PropsStr "") "inclusive" two_on_demand
  = regenerate demo_fun (PropsList ["throat.seed"]) "inclusive" two_on_demand.
Proof.
  rewrite (regenerate_default_closed_form demo_fun two_on_demand).
  - vm_compute. reflexivity.
  - by_compute.
  - by_compute.
Defined.

(** X5: when no two on-demand entries are neighbours in the Registry,
    [regenerate()] with no arguments runs exactly the keys that are not on
    demand, in Registry order, and the Master keeps its value at every
    on-demand key. *)
Theorem regenerate_default_spares_on_demand
    (call_fun : nat → GenericModel → World → result pyval) (w : World) :
  NoDup (pd_keys (items (self w))) →
  Forall (λ kv, is_Some (kv.2 !! "regen_mode")) (items (self w)) →
  (∀ i x y, pd_keys (items (self w)) !! i = Some x →
            pd_keys (items (self w)) !! S i = Some y →
            is_on_demand w x = true → is_on_demand w y = false) →
  regenerate call_fun (PropsStr "") "inclusive" w
  = regenerate call_fun
      (PropsList (filter (λ k, is_on_demand w k = false)
                         (pd_keys (items (self w)))))
      "inclusive" w ∧
  ∀ k, is_on_demand w k = true →
    host_data (_master (regenerate call_fun (PropsStr "") "inclusive" w).2) !! k
    = host_data (_master w) !! k.
Proof.
  intros Hnd Hmodes Hadj.
  assert (regenerate call_fun (PropsStr "") "inclusive" w
          = regenerate call_fun
              (PropsList (filter (λ k, is_on_demand w k = false)
                                 (pd_keys (items (self w)))))
              "inclusive" w) as Heq.
  { apply regenerate_of_selection. by apply select_default_filter. }
  split; [done|]. intros k Hk. rewrite Heq.
  destruct (regenerate call_fun (PropsList _) "inclusive" w) as [r w'] eqn:Hr.
  revert Hr. unfold regenerate.
  rewrite (bind_Ok _ _ _ _ _ (select_explicit _ "inclusive" w ltac:(done))).
  unfold logger_info, modify. py_unfold. intros Hloop. simpl.
  rewrite (regenerate_loop_other _ _ _ _ _ _ k Hloop); [done|].
  intros [Hod _]%list_elem_of_filter. congruence.
Qed.

(** X5 at work. *)
Lemma regenerate_default_spares_on_demand_witness :
  let w := mixed_models in
  let r := regenerate demo_fun (PropsStr "") "inclusive" w in
  is_on_demand w "pore.diameter" = true ∧
  r = regenerate demo_fun (PropsList ["pore.seed"; "throat.seed"]) "inclusive" w ∧
  host_data (_master r.2) !! "pore.diameter"
  = host_data (_master w) !! "pore.diameter".
Proof.
  intros w r.
  destruct (regenerate_default_spares_on_demand demo_fun w) as [Heq Hspare].
  - by_compute.
  - by_compute.
  - exact mixed_models_no_neighbours.
  - split; [reflexivity|]. split.
    + unfold r. rewrite Heq. vm_compute. reflexivity.
    + apply Hspare. reflexivity.
Defined.

(** X6: with no [props] and mode ['exclude'] the defaulted selection
    is complemented: when no two on-demand entries are neighbours,
    [regenerate(mode='exclude')] runs exactly the on-demand entries. *)
Theorem regenerate_default_exclude_runs_on_demand
    (call_fun : nat → GenericModel → World → result pyval) (w : World) :
  NoDup (pd_keys (items (self w))) →
  Forall (λ kv, is_Some (kv.2 !! "regen_mode")) (items (self w)) →
  (∀ i x y, pd_keys (items (self w)) !! i = Some x →
            pd_keys (items (self w)) !! S i = Some y →
            is_on_demand w x = true → is_on_demand w y = false) →
  regenerate call_fun (PropsStr "") "exclude" w
  = regenerate call_fun
      (PropsList (filter (λ k, is_on_demand w k = true)
                         (pd_keys (items (self w)))))
      "inclusive" w.
Proof.
  intros Hnd Hmodes Hadj. apply regenerate_of_selection.
  pose proof (select_default_filter "inclusive" w ltac:(done) Hnd Hmodes Hadj)
    as Hsel.
  revert Hsel. unfold select, keys. py_unfold. simpl.
  destruct (on_demand_loop _ _ _ w) as [[names|e] w1]; [|done].
  intros [= -> ->]. rewrite remove_loop_filter.
  - do 2 f_equal. apply filter_ext_elem. intros k Hk.
    rewrite list_elem_of_filter. destruct (is_on_demand w k).
    + split; [done|]. by intros _ [? _].
    + split; [|done]. intros Hn. by destruct Hn.
  - done.
  - by apply NoDup_filter.
  - by intros x [_ ?]%list_elem_of_filter.
Qed.

(** X6 at work. *)
Lemma regenerate_default_exclude_runs_on_demand_witness :
  regenerate demo_fun (PropsStr "") "exclude" mixed_models
  = regenerate demo_fun (PropsList ["pore.diameter"]) "inclusive" mixed_models.
Proof.
  rewrite (regenerate_default_exclude_runs_on_demand demo_fun mixed_models).
  - vm_compute. reflexivity.
  - by_compute.
  - by_compute.
  - exact mixed_models_no_neighbours.
Defined.

(** ** regenerate: one more name at the end of the selection *)




(** ** add and item assignment, followed by regenerate *)

Lemma pd_set_keys_elem `{EqDecision K} {V} (k : K) (v : V) (d : pydict K V) :
  k ∈ pd_keys d → pd_keys (pd_set k v d) = pd_keys d.
Proof.
  unfold pd_keys. induction d as [|[k' v'] d IH]; simpl.
  - by intros ?%elem_of_nil.
  - destruct (decide (k = k')) as [->|Hne]; [done|].
    intros [?|Hin]%elem_of_cons; [done|]. simpl. f_equal. by apply IH.
Qed.

Lemma pd_set_keys_fresh `{EqDecision K} {V} (k : K) (v : V) (d : pydict K V) :
  k ∉ pd_keys d → pd_keys (pd_set k v d) = pd_keys d ++ [k].
Proof.
  unfold pd_keys. induction d as [|[k' v'] d IH]; simpl; [done|].
  intros [Hne Hnin]%not_elem_of_cons.
  rewrite decide_False by done. simpl. f_equal. by apply IH.
Qed.

Lemma pd_lookup_set_ne `{EqDecision K} {V} (k k' : K) (v : V) (d : pydict K V) :
  k ≠ k' → pd_lookup k' (pd_set k v d) = pd_lookup k' d.
Proof.
  intros Hne. induction d as [|[k0 v0] d IH]; simpl.
  - by rewrite decide_False.
  - destruct (decide (k = k0)) as [->|Hne0]; simpl.
    + by rewrite !decide_False.
    + by rewrite IH.
Qed.

(** X8: a regeneration mode that is none of the four names is not
    refused: [add] returns normally and neither the Registry nor the Master
    changes. *)
Theorem add_unknown_mode_is_noop (propname : string) (model : pyval)
    (regen_mode : string) (kwargs : GenericModel)
    (context : pyval * pyval * pyval * pyval) (w : World) :
  regen_mode ∉ ["static"; "constant"; "deferred"; "on_demand"] →
  resolve_context w = (Ok context, w) →
  add propname model regen_mode kwargs w = (Ok tt, w).
Proof.
  intros Hmode Hctx. rewrite add_unfold, Hctx. cbv zeta.
  rewrite !bool_decide_eq_false_2; [done|..].
  - intros ->. apply Hmode. by do 1 right; left.
  - intros Hin. apply Hmode.
    apply elem_of_cons in Hin as [->|Hin]; [left|].
    right. by right.
Qed.

(** X8 at work. *)
Lemma add_unknown_mode_is_noop_witness :
  add "pore.seed" (PyFun 0) "Static" ∅ test_geometry = (Ok tt, test_geometry).
Proof.
  apply (add_unknown_mode_is_noop "pore.seed" (PyFun 0) "Static" ∅
           (PyRef SelfRef, PyNone, PyNone, PyNone)).
  - by_compute.
  - reflexivity.
Defined.

(** X9: in the modes ['static'], ['deferred'] and ['on_demand'], [add]
    touches neither the Master nor the log; a name that is a key already
    keeps its place in the order, a new name goes to the end, and the
    entries of the other keys are as before. *)
Theorem add_stores_in_place_or_last (propname : string) (model : pyval)
    (regen_mode : string) (kwargs : GenericModel)
    (context : pyval * pyval * pyval * pyval) (w : World) :
  regen_mode ∈ ["static"; "deferred"; "on_demand"] →
  resolve_context w = (Ok context, w) →
  let r := add propname model regen_mode kwargs w in
  r.1 = Ok tt ∧
  _master r.2 = _master w ∧
  logger r.2 = logger w ∧
  pd_keys (items (self r.2))
  = (if bool_decide (propname ∈ pd_keys (items (self w)))
     then pd_keys (items (self w))
     else pd_keys (items (self w)) ++ [propname]) ∧
  ∀ k, k ≠ propname →
    pd_lookup k (items (self r.2)) = pd_lookup k (items (self w)).
Proof.
  intros Hmode Hctx. cbv zeta. rewrite add_unfold, Hctx. cbv zeta.
  rewrite bool_decide_eq_true_2 by done. rewrite setitem_unfold.
  cbn [fst snd set_items self items _master logger].
  repeat split.
  - case_bool_decide; [by apply pd_set_keys_elem|by apply pd_set_keys_fresh].
  - intros k Hk. by apply pd_lookup_set_ne.
Qed.

(** X9 at work. *)
Lemma add_stores_in_place_or_last_witness :
  pd_keys (items (self (add "pore.seed" (PyFun 1) "deferred" ∅ test_geometry).2))
  = ["pore.seed"; "throat.seed"; "throat.length"] ∧
  pd_keys (items (self (add "pore.area" (PyFun 1) "deferred" ∅ test_geometry).2))
  = ["pore.seed"; "throat.seed"; "throat.length"; "pore.area"].
Proof.
  split.
  - apply (add_stores_in_place_or_last "pore.seed" (PyFun 1) "deferred" ∅
             (PyRef SelfRef, PyNone, PyNone, PyNone) test_geometry).
    + by_compute.
    + reflexivity.
  - apply (add_stores_in_place_or_last "pore.area" (PyFun 1) "deferred" ∅
             (PyRef SelfRef, PyNone, PyNone, PyNone) test_geometry).
    + by_compute.
    + reflexivity.
Defined.

(** Regenerating one name that is a key: the model is called on the state
    that already holds the header line. *)
Lemma regenerate_one call_fun name entry w :
  name ≠ "" →
  pd_lookup name (items (self w)) = Some entry →
  regenerate call_fun (PropsStr name) "inclusive" w =
  match GenericModel_regenerate call_fun entry (add_log INFO header w) with
  | (Ok value, _) =>
      (Ok tt, add_log INFO (pretty 0%nat +:+ " : " +:+ name)
                (set_master_item name value (add_log INFO header w)))
  | (Raise e, _) => (Raise e, add_log INFO header w)
  end.
Proof.
  intros Hname Hentry. unfold regenerate, select. py_unfold.
  rewrite !bool_decide_eq_false_2 by done.
  unfold logger_info, modify.
  rewrite (regenerate_loop_key _ _ _ _ entry) by done.
  by destruct (GenericModel_regenerate _ _ _) as [[value|e] w1].
Qed.

(** X10: a model added under a non-empty name and then regenerated by
    that name is called on its stored entry, and what it returns is the
    only change to the Master: the value of that name. *)
Theorem add_then_regenerate
    (call_fun : nat → GenericModel → World → result pyval)
    (propname : string) (f : nat) (regen_mode : string) (kwargs : GenericModel)
    (context : pyval * pyval * pyval * pyval) (value : pyval) (w : World) :
  propname ≠ "" →
  regen_mode ∈ ["static"; "deferred"; "on_demand"] →
  add_kwargs kwargs →
  resolve_context w = (Ok context, w) →
  let entry := wrap propname (build_f (PyFun f) context regen_mode kwargs) in
  let w1 := (add propname (PyFun f) regen_mode kwargs w).2 in
  call_fun f entry (add_log INFO header w1) = Ok value →
  let r := regenerate call_fun (PropsStr propname) "inclusive" w1 in
  r.1 = Ok tt ∧
  host_data (_master r.2) = <[propname := value]> (host_data (_master w)) ∧
  self r.2 = self w1.
Proof.
  intros Hname Hmode (_ & Hk & _) Hctx entry w1 Hcall.
  assert (w1 = set_items (pd_set propname entry (items (self w))) w) as Hw1.
  { unfold w1. rewrite add_unfold, Hctx. cbv zeta.
    by rewrite bool_decide_eq_true_2. }
  assert (entry !! "model" = Some (PyFun f)) as Hmodel.
  { unfold entry. destruct context as [[[network phase] geometry] physics].
    by rewrite wrap_lookup, build_f_lookup, Hk. }
  cbv zeta. rewrite (regenerate_one _ _ entry); [|done|].
  - unfold GenericModel_regenerate, dict_getitem. py_unfold.
    rewrite Hmodel. simpl. rewrite Hcall. simpl. by rewrite Hw1.
  - rewrite Hw1. simpl. apply pd_lookup_set.
Qed.

(** X10 at work. *)
Lemma add_then_regenerate_witness :
  let w := ModelsDict_init geometry_host in
  let w1 := (add "pore.seed" (PyFun 7) "on_demand" ∅ w).2 in
  let r := regenerate const_fun (PropsStr "pore.seed") "inclusive" w1 in
  r.1 = Ok tt ∧
  host_data (_master r.2) = <["pore.seed" := PyInt 7]> (host_data (_master w)).
Proof.
  intros w w1 r.
  destruct (add_then_regenerate const_fun "pore.seed" 7 "on_demand" ∅
              (PyRef SelfRef, PyNone, PyNone, PyNone) (PyInt 7) w)
    as (Hr & Hdata & _).
  - done.
  - by_compute.
  - by repeat split.
  - reflexivity.
  - reflexivity.
  - split; [exact Hr|exact Hdata].
Defined.

(** X11: an entry assigned directly from a mapping without ['model']
    holds [None] as its model; regenerating it by name raises [TypeError]
    after the header line has been logged, the Master untouched. *)
Theorem setitem_without_model_fails
    (call_fun : nat → GenericModel → World → result pyval)
    (name : string) (spec : GenericModel) (w : World) :
  name ≠ "" →
  spec !! "model" = None →
  let w1 := (ModelsDict_setitem name spec w).2 in
  regenerate call_fun (PropsStr name) "inclusive" w1
  = (Raise TypeError, add_log INFO header w1).
Proof.
  intros Hname Hspec. cbv zeta. rewrite setitem_unfold.
  rewrite (regenerate_one _ _ (wrap name spec)); [|done|].
  - unfold GenericModel_regenerate, dict_getitem. py_unfold.
    by rewrite wrap_lookup, Hspec.
  - simpl. apply pd_lookup_set.
Qed.

(** X11 at work. *)
Lemma setitem_without_model_fails_witness :
  let w1 := (ModelsDict_setitem "pore.area" ∅ test_geometry).2 in
  regenerate const_fun (PropsStr "pore.area") "inclusive" w1
  = (Raise TypeError, add_log INFO header w1).
Proof.
  intros w1.
  apply (setitem_without_model_fails const_fun "pore.area" ∅ test_geometry).
  - done.
  - reflexivity.
Defined.

(** ** __str__: the table of the Registry *)

Lemma pd_lookup_app_l `{EqDecision K} {V} (k : K) (d1 d2 : pydict K V) :
  k ∈ pd_keys d1 → pd_lookup k (d1 ++ d2) = pd_lookup k d1.
Proof.
  unfold pd_keys. induction d1 as [|[k' v'] d1 IH]; simpl.
  - by intros ?%elem_of_nil.
  - destruct (decide (k = k')); [done|].
    intros [?|Hin]%elem_of_cons; [done|]. by apply IH.
Qed.

Lemma pd_lookup_app_r `{EqDecision K} {V} (k : K) (d1 d2 : pydict K V) :
  k ∉ pd_keys d1 → pd_lookup k (d1 ++ d2) = pd_lookup k d2.
Proof.
  unfold pd_keys. induction d1 as [|[k' v'] d1 IH]; simpl; [done|].
  intros [Hne Hnin]%not_elem_of_cons. rewrite decide_False by done. by apply IH.
Qed.

(** The rows that the loop of [__str__] prints when every name it meets
    has an entry with a string as regeneration mode. *)
Lemma str_loop_rows w ks count out :
  (∀ k, k ∈ ks → ∃ entry s, pd_lookup k (items (self w)) = Some entry ∧
                            entry !! "regen_mode" = Some (PyStr s)) →
  ∃ rows, str_loop w ks count out = (out ++ rows, Ok tt) ∧
    length rows = length ks ∧
    ∀ i k entry s,
      ks !! i = Some k →
      pd_lookup k (items (self w)) = Some entry →
      entry !! "regen_mode" = Some (PyStr s) →
      rows !! i = Some (table_row (ljust 5 (pretty (count + i)%nat))
                                  (ljust 30 k) (ljust 20 s)).
Proof.
  revert count out. induction ks as [|item rest IH]; intros count out Hks.
  - exists []. simpl. by rewrite app_nil_r.
  - destruct (Hks item) as (entry & s & Hentry & Hs); [left|].
    simpl. unfold ModelsDict_getitem, dict_getitem. py_unfold.
    rewrite Hentry. simpl. rewrite Hs. simpl.
    destruct (IH (S count)
                (out ++ [table_row (ljust 5 (pretty count)) (ljust 30 item)
                                   (ljust 20 s)]))
      as (rows & -> & Hlen & Hrows).
    { intros k Hk. apply Hks. by right. }
    eexists (_ :: rows). split; [by rewrite <-app_assoc|].
    split; [simpl; by rewrite Hlen|].
    intros [|i] k entry' s' Hk Hentry' Hs'; simpl in *.
    + simplify_eq. by rewrite Nat.add_0_r.
    + rewrite (Hrows i k entry' s' Hk Hentry' Hs'). by rewrite Nat.add_succ_r.
Qed.

Lemma str_loop_app w ks1 ks2 count out out1 :
  str_loop w ks1 count out = (out1, Ok tt) →
  str_loop w (ks1 ++ ks2) count out
  = str_loop w ks2 (count + length ks1)%nat out1.
Proof.
  revert count out. induction ks1 as [|item rest IH]; intros count out; simpl.
  - intros [= ->]. by rewrite Nat.add_0_r.
  - destruct (_ ≫= _) as [b|e]; [|done].
    intros Hrest. rewrite (IH _ _ Hrest). by rewrite Nat.add_succ_r.
Qed.

Lemma string_modes_lookup w :
  Forall (λ kv, ∃ s, kv.2 !! "regen_mode" = Some (PyStr s)) (items (self w)) →
  ∀ k, k ∈ pd_keys (items (self w)) →
  ∃ entry s, pd_lookup k (items (self w)) = Some entry ∧
             entry !! "regen_mode" = Some (PyStr s).
Proof.
  intros Hmodes k Hk. destruct (pd_lookup_Some _ _ Hk) as [entry Hentry].
  rewrite Forall_forall in Hmodes.
  destruct (Hmodes _ (pd_lookup_elem_of _ _ _ Hentry)) as [s Hs]. eauto.
Qed.

(** The loop of [__str__] in full, when every name it meets has an entry
    with a string as regeneration mode. *)
Lemma str_loop_table w ks modes count out :
  Forall2 (λ k s, ∃ entry, pd_lookup k (items (self w)) = Some entry ∧
                           entry !! "regen_mode" = Some (PyStr s)) ks modes →
  str_loop w ks count out =
  (out ++ imap (λ i km, table_row (ljust 5 (pretty (count + i)%nat))
                                  (ljust 30 km.1) (ljust 20 km.2))
               (zip ks modes),
   Ok tt).
Proof.
  intros Hmodes. revert count out.
  induction Hmodes as [|k s ks modes (entry & Hentry & Hs) _ IH];
    intros count out.
  - simpl. by rewrite app_nil_r.
  - cbn [str_loop zip zip_with]. unfold ModelsDict_getitem, dict_getitem.
    py_unfold. rewrite Hentry. cbn [fst]. rewrite Hs. cbn [format_s].
    rewrite IH, <-app_assoc, imap_cons. cbn [fst snd app].
    rewrite Nat.add_0_r. do 3 f_equal. apply imap_ext. intros i km _.
    cbn [compose]. by rewrite Nat.add_succ_r.
Qed.

(** X12: when every entry has a string as regeneration mode, [__str__]
    returns [' '] after printing exactly these lines: a rule of 60 dashes,
    the title line, a rule, one row per key in Registry order (its
    position counted from 0, the key and the mode, each followed by spaces
    up to its column width of 5, 30 and 20 characters, a longer text
    uncut) and a closing rule.  The widths count characters, so a name
    that is not ASCII is padded by its number of characters. *)
Theorem ModelsDict_str_table (w : World) (modes : list string) :
  Forall2 (λ k s, ∃ entry, pd_lookup k (items (self w)) = Some entry ∧
                           entry !! "regen_mode" = Some (PyStr s))
          (pd_keys (items (self w))) modes →
  ModelsDict_str w =
  ([str_repeat "-" 60;
    "#     Property Name                  Regeneration Mode   ";
    str_repeat "-" 60]
   ++ imap (λ i km, table_row (ljust 5 (pretty i)) (ljust 30 km.1)
                              (ljust 20 km.2))
           (zip (pd_keys (items (self w))) modes)
   ++ [str_repeat "-" 60],
   Ok " ").
Proof.
  intros Hmodes. unfold ModelsDict_str.
  rewrite (str_loop_table _ _ _ _ _ Hmodes). cbn [Nat.add].
  by rewrite <-app_assoc.
Qed.

(** X12 at work: a name of nine characters in ten bytes is followed by 21
    spaces, as a name of nine ASCII characters would be. *)
Lemma ModelsDict_str_table_witness :
  ModelsDict_str accented_models =
  ([str_repeat "-" 60;
    "#     Property Name                  Regeneration Mode   ";
    str_repeat "-" 60;
    "0     pöre.seed                      static              ";
    "1     throat.seed                    deferred            ";
    str_repeat "-" 60],
   Ok " ").
Proof.
  rewrite (ModelsDict_str_table accented_models ["static"; "deferred"]).
  - vm_compute. reflexivity.
  - repeat (apply Forall2_cons; split; [eexists; split; reflexivity|]).
    apply Forall2_nil_2.
Defined.

(** X13: [__str__] raises [KeyError] at the first entry without
    ['regen_mode'], after it has printed the three header lines and the
    rows of the entries before it. *)
Theorem ModelsDict_str_missing_mode (w : World)
    (d1 d2 : pydict string GenericModel) (k : string) (entry : GenericModel) :
  items (self w) = d1 ++ (k, entry) :: d2 →
  Forall (λ kv, ∃ s, kv.2 !! "regen_mode" = Some (PyStr s)) d1 →
  k ∉ pd_keys d1 →
  entry !! "regen_mode" = None →
  let r := ModelsDict_str w in
  r.2 = Raise (KeyError (PyStr "regen_mode")) ∧
  length r.1 = (3 + length d1)%nat.
Proof.
  intros Hitems Hmodes Hk Hentry. cbv zeta. unfold ModelsDict_str.
  rewrite Hitems. unfold pd_keys. rewrite fmap_app, fmap_cons.
  set (out := [_; _; _]).
  destruct (str_loop_rows w (d1.*1) 0 out) as (rows & Hloop & Hlen & _).
  { intros k' Hk'. destruct (pd_lookup_Some _ _ Hk') as [e' He'].
    exists e'. rewrite Hitems, pd_lookup_app_l by done.
    rewrite Forall_forall in Hmodes.
    destruct (Hmodes _ (pd_lookup_elem_of _ _ _ He')) as [s Hs]. eauto. }
  rewrite (str_loop_app _ _ _ _ _ _ Hloop). simpl.
  unfold ModelsDict_getitem, dict_getitem. py_unfold.
  rewrite Hitems, pd_lookup_app_r by done. simpl.
  rewrite decide_True by done. simpl. rewrite Hentry. simpl.
  split; [done|]. rewrite ?length_app, Hlen, length_fmap. simpl. lia.
Qed.

(** X13 at work. *)
Lemma ModelsDict_str_missing_mode_witness :
  let r := ModelsDict_str unmoded_models in
  r.2 = Raise (KeyError (PyStr "regen_mode")) ∧ length r.1 = 6%nat.
Proof.
  apply (ModelsDict_str_missing_mode unmoded_models
           (items (self test_geometry)) [] "pore.area"
           (wrap "pore.area" {[ "model" := PyFun 0 ]})).
  - reflexivity.
  - exact test_geometry_modes.
  - by_compute.
  - reflexivity.
Defined.

Lemma str_returns w :
  Forall (λ kv, ∃ s, kv.2 !! "regen_mode" = Some (PyStr s)) (items (self w)) →
  (ModelsDict_str w).2 = Ok " ".
Proof.
  intros Hmodes. unfold ModelsDict_str.
  by destruct (str_loop_rows w (pd_keys (items (self w))) 0
                 [str_repeat "-" 60;
                  table_row (ljust 5 "#") (ljust 30 "Property Name")
                            (ljust 20 "Regeneration Mode");
                  str_repeat "-" 60]
                 (string_modes_lookup w Hmodes)) as (rows & -> & _).
Qed.

(** X14: [add] keeps the property that every entry has a string as
    regeneration mode (its keyword arguments cannot carry ['regen_mode']),
    so the table of a Registry filled by [add] alone always prints. *)
Theorem add_keeps_table_printable (propname : string) (model : pyval)
    (regen_mode : string) (kwargs : GenericModel) (w : World) :
  add_kwargs kwargs →
  Forall (λ kv, ∃ s, kv.2 !! "regen_mode" = Some (PyStr s)) (items (self w)) →
  let w' := (add propname model regen_mode kwargs w).2 in
  Forall (λ kv, ∃ s, kv.2 !! "regen_mode" = Some (PyStr s)) (items (self w')) ∧
  (ModelsDict_str w').2 = Ok " ".
Proof.
  intros (_ & _ & Hk & _) Hmodes. cbv zeta.
  assert (Forall (λ kv, ∃ s, kv.2 !! "regen_mode" = Some (PyStr s))
            (items (self (add propname model regen_mode kwargs w).2))) as Hinv.
  { rewrite add_unfold.
    destruct (resolve_context w) as [[[[[network phase] geometry] physics]|e] w1];
      [|done].
    cbv zeta. repeat case_bool_decide; try done.
    rewrite setitem_unfold. cbn [snd set_items self items].
    apply pd_set_Forall; [|done]. exists regen_mode. cbn [snd].
    by rewrite wrap_lookup, build_f_lookup, Hk. }
  split; [done|]. by apply str_returns.
Qed.

(** X14 at work. *)
Lemma add_keeps_table_printable_witness :
  (ModelsDict_str (add "pore.area" (PyFun 1) "on_demand" ∅ test_geometry).2).2
  = Ok " ".
Proof.
  apply (add_keeps_table_printable "pore.area" (PyFun 1) "on_demand" ∅
           test_geometry).
  - by repeat split.
  - exact test_geometry_modes.
Defined.

(** ** reorder: the rebuilt Registry *)

Lemma set_items_id w : set_items (items (self w)) w = w.
Proof. by destruct w as [[mro net phases d] master log]. Qed.

Lemma set_items_twice d1 d2 w : set_items d2 (set_items d1 w) = set_items d2 w.
Proof. done. Qed.

Lemma pd_delete_filter `{EqDecision K} {V} (k : K) (d : pydict K V) :
  NoDup (pd_keys d) → pd_delete k d = filter (λ kv, kv.1 ≠ k) d.
Proof.
  unfold pd_keys. induction d as [|[k' v'] d IH]; [done|].
  rewrite fmap_cons. intros [Hnin Hnd]%NoDup_cons. simpl.
  destruct (decide (k = k')) as [->|Hne].
  - rewrite filter_cons_False by (by intros []).
    rewrite filter_all; [done|]. intros [k1 v1] Hin. simpl. intros ->.
    apply Hnin, list_elem_of_fmap. by exists (k', v1).
  - rewrite filter_cons_True by (simpl; congruence). by rewrite IH.
Qed.

Lemma pd_lookup_snoc_ne `{EqDecision K} {V} (k x : K) (v : V) (d : pydict K V) :
  k ≠ x → pd_lookup k (d ++ [(x, v)]) = pd_lookup k d.
Proof.
  intros Hne. induction d as [|[k' v'] d IH]; simpl.
  - by rewrite decide_False.
  - by rewrite IH.
Qed.

Lemma pd_lookup_filter_ne `{EqDecision K} {V} (k x : K) (d : pydict K V) :
  k ≠ x → pd_lookup k (filter (λ kv, kv.1 ≠ x) d) = pd_lookup k d.
Proof.
  intros Hne. induction d as [|[k' v'] d IH]; [done|].
  rewrite filter_cons. simpl. destruct (decide (k' ≠ x)) as [Hk'|Hk']; simpl.
  - by rewrite IH.
  - apply dec_stable in Hk' as ->. by rewrite decide_False.
Qed.

Lemma pd_rebuild `{EqDecision K} {V} (dflt : V) (d : pydict K V) :
  NoDup (pd_keys d) →
  (λ k, (k, default dflt (pd_lookup k d))) <$> pd_keys d = d.
Proof.
  unfold pd_keys. induction d as [|[k v] d IH]; [done|].
  rewrite fmap_cons. intros [Hnin Hnd]%NoDup_cons. simpl.
  rewrite decide_True by done. simpl. f_equal.
  rewrite <-(IH Hnd) at 2. apply list_fmap_ext. intros i k' Hk'. simpl.
  rewrite decide_False; [done|]. intros ->. apply Hnin.
  by eapply list_elem_of_lookup_2.
Qed.

Lemma pd_keys_app_pairs {K V} (d : pydict K V) (f : K → V) (order : list K) :
  pd_keys (d ++ ((λ k, (k, f k)) <$> order)) = pd_keys d ++ order.
Proof.
  unfold pd_keys. rewrite fmap_app. f_equal.
  induction order as [|k order IH]; [done|]. rewrite !fmap_cons. simpl.
  by f_equal.
Qed.

(** The loop of [move_to_end] calls rebuilds the Registry: the keys that
    [order] does not name stay in front, in their order, and the keys of
    [order] follow in the order of [order], each with its entry. *)
Lemma move_loop_exact order w :
  NoDup (pd_keys (items (self w))) →
  NoDup order →
  (∀ x, x ∈ order → x ∈ pd_keys (items (self w))) →
  move_loop order w
  = (Ok tt,
     set_items (filter (λ kv, kv.1 ∉ order) (items (self w)) ++
                ((λ k, (k, default ∅ (pd_lookup k (items (self w))))) <$> order))
               w).
Proof.
  revert w. induction order as [|x rest IH]; intros w Hnk Hno Hsub.
  - simpl. rewrite app_nil_r, filter_all; [by rewrite set_items_id|].
    intros kv _. apply not_elem_of_nil.
  - apply NoDup_cons in Hno as [Hx Hno].
    destruct (pd_lookup_Some x (items (self w))) as [v Hv]; [apply Hsub; left|].
    simpl. unfold ModelsDict_move_to_end, pd_move_to_end. py_unfold. rewrite Hv.
    pose proof (pd_delete_Permutation _ _ _ Hv) as Hperm.
    set (d := items (self w)) in *.
    set (d1 := pd_delete x d ++ [(x, v)]).
    assert (d1 ≡ₚ d) as Hperm1.
    { unfold d1. rewrite Hperm at 2. by rewrite <-Permutation_cons_append. }
    rewrite IH; cbn [set_items self items class_mro _net _phases _master logger].
    + change (mkWorld _ (_master w) (logger w)) with (set_items d1 w).
      rewrite set_items_twice. do 2 f_equal. unfold d1 at 1. rewrite (pd_delete_filter _ _ Hnk).
      rewrite filter_app, list_filter_filter, filter_cons_True by done.
      rewrite filter_nil, <-app_assoc. simpl. f_equal.
      * apply list_filter_iff. intros [k' v']. simpl.
        rewrite not_elem_of_cons. tauto.
      * f_equal. apply list_fmap_ext. intros i k Hk. simpl.
        assert (k ≠ x) as Hne.
        { intros ->. apply Hx. by eapply list_elem_of_lookup_2. }
        unfold d1. rewrite pd_lookup_snoc_ne by done.
        rewrite (pd_delete_filter _ _ Hnk).
        by rewrite pd_lookup_filter_ne.
    + unfold pd_keys. by rewrite Hperm1.
    + done.
    + intros y Hy. unfold pd_keys. rewrite Hperm1. apply Hsub. by right.
Qed.

Lemma pd_set_keys_mono `{EqDecision K} {V} (k x : K) (v : V) (d : pydict K V) :
  x = k ∨ x ∈ pd_keys d → x ∈ pd_keys (pd_set k v d).
Proof.
  destruct (decide (k ∈ pd_keys d)) as [Hk|Hk].
  - rewrite pd_set_keys_elem by done. by intros [->|?].
  - rewrite pd_set_keys_fresh by done. rewrite elem_of_app, list_elem_of_singleton.
    tauto.
Qed.

Lemma pd_set_NoDup `{EqDecision K} {V} (k : K) (v : V) (d : pydict K V) :
  NoDup (pd_keys d) → NoDup (pd_keys (pd_set k v d)).
Proof.
  intros Hnd. destruct (decide (k ∈ pd_keys d)) as [Hk|Hk].
  - by rewrite pd_set_keys_elem.
  - rewrite pd_set_keys_fresh by done. apply NoDup_app. split; [done|].
    split; [|apply NoDup_singleton].
    by intros x Hx ->%list_elem_of_singleton.
Qed.

Lemma pd_set_values_NoDup `{EqDecision K} {V} (k : K) (v : V) (d : pydict K V) :
  NoDup d.*2 → v ∉ d.*2 → NoDup (pd_set k v d).*2.
Proof.
  induction d as [|[k' v'] d IH]; simpl.
  - intros _ _. apply NoDup_singleton.
  - intros [Hv' Hnd]%NoDup_cons [Hne Hv]%not_elem_of_cons.
    destruct (decide (k = k')) as [->|Hk]; simpl.
    + by apply NoDup_cons.
    + apply NoDup_cons. split; [|by apply IH].
      intros [->|?]%pd_set_values; done.
Qed.

(** The keys of the inverse dict are all the target indices, each once;
    with distinct names its values are distinct too. *)
Lemma invert_keys (new_order : pydict string Z) :
  NoDup (pd_keys (invert new_order)) ∧
  (∀ i, i ∈ new_order.*2 → i ∈ pd_keys (invert new_order)).
Proof.
  unfold invert.
  cut (∀ acc : pydict Z string, NoDup (pd_keys acc) →
         NoDup (pd_keys (foldl (λ d kv, pd_set kv.2 kv.1 d) acc new_order)) ∧
         (∀ i, i ∈ pd_keys acc ∨ i ∈ new_order.*2 →
               i ∈ pd_keys (foldl (λ d kv, pd_set kv.2 kv.1 d) acc new_order))).
  { intros H. destruct (H [] (NoDup_nil_2)) as [H1 H2].
    split; [done|]. intros i Hi. apply H2. by right. }
  induction new_order as [|[k v] rest IH]; intros acc Hacc; simpl.
  - split; [done|]. intros i [?|?%elem_of_nil]; done.
  - destruct (IH (pd_set v k acc) (pd_set_NoDup _ _ _ Hacc)) as [H1 H2].
    split; [done|]. intros i Hi. apply H2.
    rewrite elem_of_cons in Hi. destruct Hi as [Hi|[->|Hi]].
    + left. apply pd_set_keys_mono. by right.
    + left. apply pd_set_keys_mono. by left.
    + by right.
Qed.

Lemma invert_values_NoDup (new_order : pydict string Z) :
  NoDup (pd_keys new_order) → NoDup (invert new_order).*2.
Proof.
  unfold invert, pd_keys.
  cut (∀ acc : pydict Z string, NoDup acc.*2 → NoDup new_order.*1 →
         (∀ k, k ∈ new_order.*1 → k ∉ acc.*2) →
         NoDup (foldl (λ d kv, pd_set kv.2 kv.1 d) acc new_order).*2).
  { intros H Hnd. apply H; [apply NoDup_nil_2|done|].
    intros k _. apply not_elem_of_nil. }
  induction new_order as [|[k v] rest IH]; intros acc Hacc Hnd Hdisj; simpl.
  - done.
  - rewrite fmap_cons in Hnd. apply NoDup_cons in Hnd as [Hk Hnd]. apply IH.
    + apply pd_set_values_NoDup; [done|]. apply Hdisj. left.
    + done.
    + intros k' Hk' [->|Hin]%pd_set_values; [done|].
      apply (Hdisj k'); [by right|done].
Qed.

(** Inserting a name that [P] rejects does not touch what [P] keeps. *)
Lemma list_insert_at_filter (P : string → Prop) `{∀ x, Decision (P x)}
    i x l l' :
  list_insert_at i x l = Ok l' → ¬ P x → filter P l' = filter P l.
Proof.
  unfold list_insert_at. case_bool_decide; [|done]. intros [= <-] HP.
  rewrite filter_app, filter_cons_False by done.
  by rewrite <-filter_app, take_drop.
Qed.

Lemma list_insert_at_Permutation {A} i (x : A) l l' :
  list_insert_at i x l = Ok l' → l' ≡ₚ x :: l.
Proof.
  unfold list_insert_at. case_bool_decide; [|done]. intros [= <-].
  by rewrite <-Permutation_middle, take_drop.
Qed.

Lemma list_insert_at_error {A} i (x : A) l e :
  list_insert_at i x l = Raise e → e = OverflowError.
Proof. unfold list_insert_at. case_bool_decide; [done|]. by intros [= <-]. Qed.

(** The insertion loop over indices that are all keys of [inv_dict] and
    all within the index range. *)
Lemma insert_loop_spec ks (inv_dict : pydict Z string) order :
  (∀ i, i ∈ ks → - PY_SSIZE_T_MAX - 1 ≤ i ≤ PY_SSIZE_T_MAX ∧ i ∈ pd_keys inv_dict) →
  ∃ order', insert_loop ks inv_dict order = Ok order' ∧
    order' ≡ₚ ((λ i, default "" (pd_lookup i inv_dict)) <$> ks) ++ order ∧
    ∀ (P : string → Prop) (HP : ∀ x, Decision (P x)),
      (∀ x, x ∈ inv_dict.*2 → ¬ P x) → filter P order' = filter P order.
Proof.
  revert order. induction ks as [|item rest IH]; intros order Hks; simpl.
  - by exists order.
  - destruct (Hks item) as [Hrange Hkey]; [left|].
    destruct (pd_lookup_Some _ _ Hkey) as [name Hname]. rewrite Hname.
    destruct (list_insert_at_Ok item name order Hrange) as (order1 & Hins & Hperm).
    rewrite Hins. py_unfold.
    destruct (IH order1) as (order' & -> & Hperm' & Hfilter).
    { intros i Hi. apply Hks. by right. }
    exists order'. split; [done|]. split.
    + rewrite Hperm', Hperm. simpl. by rewrite Permutation_middle.
    + intros P HP Hvals. rewrite Hfilter by done.
      apply (list_insert_at_filter P _ _ _ _ Hins), Hvals.
      apply list_elem_of_fmap. exists (item, name).
      split; [done|]. by apply pd_lookup_elem_of.
Qed.

Lemma insert_loop_overflow ks (inv_dict : pydict Z string) order :
  (∀ i, i ∈ ks → i ∈ pd_keys inv_dict) →
  (∃ i, i ∈ ks ∧ ¬ (- PY_SSIZE_T_MAX - 1 ≤ i ≤ PY_SSIZE_T_MAX)) →
  insert_loop ks inv_dict order = Raise OverflowError.
Proof.
  revert order. induction ks as [|item rest IH]; intros order Hks (i & Hi & Hout).
  - by apply elem_of_nil in Hi.
  - simpl. destruct (pd_lookup_Some item inv_dict) as [name ->]; [apply Hks; left|].
    destruct (list_insert_at item name order) as [order1|e] eqn:Hins; py_unfold.
    + apply IH; [intros j Hj; apply Hks; by right|].
      exists i. split; [|done].
      apply elem_of_cons in Hi as [->|Hi]; [|done].
      revert Hins. unfold list_insert_at. by rewrite bool_decide_eq_false_2.
    + by apply list_insert_at_error in Hins as ->.
Qed.

Lemma pd_lookup_Some_iff `{EqDecision K} {V} (k : K) (v : V) (d : pydict K V) :
  NoDup (pd_keys d) → pd_lookup k d = Some v ↔ (k, v) ∈ d.
Proof.
  intros Hnd. split; [apply pd_lookup_elem_of|].
  unfold pd_keys in Hnd. induction d as [|[k' v'] d IH]; simpl.
  - by intros ?%elem_of_nil.
  - rewrite fmap_cons in Hnd. apply NoDup_cons in Hnd as [Hnin Hnd].
    intros [[= -> ->]|Hin]%elem_of_cons; [by rewrite decide_True|].
    rewrite decide_False; [by apply IH|]. intros ->. apply Hnin.
    apply list_elem_of_fmap. by exists (k', v).
Qed.

Lemma pd_lookup_Permutation `{EqDecision K} {V} (k : K) (d d' : pydict K V) :
  NoDup (pd_keys d) → d ≡ₚ d' → pd_lookup k d' = pd_lookup k d.
Proof.
  intros Hnd Hperm.
  assert (NoDup (pd_keys d')) as Hnd' by (unfold pd_keys; by rewrite <-Hperm).
  destruct (pd_lookup k d) as [v|] eqn:Hl.
  - apply pd_lookup_Some_iff; [done|]. rewrite <-Hperm.
    by apply pd_lookup_Some_iff.
  - apply pd_lookup_None. unfold pd_keys. rewrite <-Hperm.
    by apply pd_lookup_None.
Qed.

Lemma filter_none {A} (P : A → Prop) `{∀ x, Decision (P x)} (l : list A) :
  (∀ x, x ∈ l → ¬ P x) → filter P l = [].
Proof.
  induction l as [|x l IH]; intros HP; [done|].
  rewrite filter_cons_False by (apply HP; left).
  apply IH. intros y Hy. apply HP. by right.
Qed.

(** [reorder], step by step, on a well-formed call: the names leave the
    sequence, the insertion loop gives [order], and the Registry is rebuilt
    as the keys that [order] lacks followed by [order]. *)
Lemma reorder_exact (new_order : pydict string Z) (w : World) :
  NoDup (pd_keys (items (self w))) →
  NoDup (pd_keys new_order) →
  (∀ k, k ∈ pd_keys new_order → k ∈ pd_keys (items (self w))) →
  Forall (λ kv, - PY_SSIZE_T_MAX - 1 ≤ kv.2 ≤ PY_SSIZE_T_MAX) new_order →
  ∃ order,
    insert_loop (pd_keys (invert new_order)) (invert new_order)
      (filter (λ k, k ∉ pd_keys new_order) (pd_keys (items (self w))))
    = Ok order ∧
    NoDup order ∧
    (∀ x, x ∈ order → x ∈ pd_keys (items (self w))) ∧
    (∀ x, x ∈ pd_keys (items (self w)) → x ∉ pd_keys new_order → x ∈ order) ∧
    filter (λ k, k ∉ pd_keys new_order) order
    = filter (λ k, k ∉ pd_keys new_order) (pd_keys (items (self w))) ∧
    reorder new_order w
    = (Ok tt,
       set_items (filter (λ kv, kv.1 ∉ order) (items (self w)) ++
                  ((λ k, (k, default ∅ (pd_lookup k (items (self w))))) <$> order))
                 w) ∧
    items (self (reorder new_order w).2) ≡ₚ items (self w).
Proof.
  intros Hnk Hnn Hsub Hrange.
  destruct (invert_keys new_order) as [Hinv_nd Hinv_keys].
  destruct (invert_sound new_order) as [Hinv_sound Hinv_values].
  set (ks := pd_keys (items (self w))) in *.
  set (order1 := filter (λ k, k ∉ pd_keys new_order) ks).
  destruct (insert_loop_spec (pd_keys (invert new_order)) (invert new_order) order1)
    as (order & Hloop & Hperm & Hfilter).
  { intros i Hi. split; [|done].
    apply Hinv_sound, list_elem_of_fmap in Hi as ([k v] & -> & Hkv).
    rewrite Forall_forall in Hrange. apply (Hrange _ Hkv). }
  assert ((λ i, default "" (pd_lookup i (invert new_order)))
            <$> pd_keys (invert new_order) = (invert new_order).*2) as Hvals.
  { pose proof (pd_rebuild "" (invert new_order) Hinv_nd) as Hreb.
    apply (f_equal (fmap snd)) in Hreb.
    rewrite <-list_fmap_compose in Hreb. exact Hreb. }
  rewrite Hvals in Hperm.
  assert (NoDup order) as Hno.
  { rewrite Hperm. apply NoDup_app. split; [by apply invert_values_NoDup|].
    split; [|by apply NoDup_filter].
    intros x Hx [Hx' _]%list_elem_of_filter. by apply Hx', Hinv_values. }
  assert (∀ x, x ∈ order → x ∈ ks) as Hsub2.
  { intros x. rewrite Hperm, elem_of_app. intros [Hx|Hx].
    - by apply Hsub, Hinv_values.
    - by apply list_elem_of_filter in Hx as [_ ?]. }
  assert (reorder new_order w = move_loop order w) as Hre.
  { unfold reorder, keys. py_unfold. fold ks.
    rewrite remove_loop_filter by done. fold order1. by rewrite Hloop. }
  exists order. split; [done|]. split; [done|]. split; [done|].
  split; [|split; [|split]].
  - intros x Hx Hnx. rewrite Hperm, elem_of_app. right.
    by apply list_elem_of_filter.
  - rewrite Hfilter.
    + unfold order1. rewrite list_filter_filter. apply list_filter_iff. tauto.
    + intros x Hx Hnx. by apply Hnx, Hinv_values.
  - rewrite Hre. by apply move_loop_exact.
  - rewrite Hre. by destruct (move_loop_total order w Hsub2) as (w' & -> & Hp & _).
Qed.

Lemma pd_set_fresh `{EqDecision K} {V} (k : K) (v : V) (d : pydict K V) :
  k ∉ pd_keys d → pd_set k v d = d ++ [(k, v)].
Proof.
  unfold pd_keys. induction d as [|[k' v'] d IH]; simpl; [done|].
  intros [Hne Hnin]%not_elem_of_cons.
  rewrite decide_False by done. by rewrite IH.
Qed.

(** With pairwise distinct target indices the inverse dict is the list of
    the assignments, each turned round. *)
Lemma invert_distinct (new_order : pydict string Z) :
  NoDup new_order.*2 → invert new_order = (λ kv, (kv.2, kv.1)) <$> new_order.
Proof.
  unfold invert.
  cut (∀ acc : pydict Z string,
         (∀ i, i ∈ new_order.*2 → i ∉ pd_keys acc) → NoDup new_order.*2 →
         foldl (λ d kv, pd_set kv.2 kv.1 d) acc new_order
         = acc ++ ((λ kv, (kv.2, kv.1)) <$> new_order)).
  { intros H Hnd. apply (H []); [|done]. intros i _. apply not_elem_of_nil. }
  induction new_order as [|[k v] rest IH]; intros acc Hacc Hnd; simpl.
  - by rewrite app_nil_r.
  - rewrite fmap_cons in Hnd. apply NoDup_cons in Hnd as [Hv Hnd].
    rewrite pd_set_fresh by (apply Hacc; left).
    rewrite IH; [by rewrite <-app_assoc| |done].
    intros i Hi. unfold pd_keys. rewrite fmap_app, not_elem_of_app. split.
    + apply Hacc. by right.
    + simpl. rewrite list_elem_of_singleton. by intros ->.
Qed.

Lemma ascending_NoDup (l : pydict string Z) : ascending l → NoDup l.*2.
Proof.
  induction l as [|kv l IH]; simpl; [intros _; apply NoDup_nil_2|].
  intros [Hlt Hasc]. apply NoDup_cons. split; [|by apply IH].
  intros (kv' & Heq & Hin)%list_elem_of_fmap.
  rewrite Forall_forall in Hlt. specialize (Hlt _ Hin). lia.
Qed.

(** Strictly ascending integers below [n]: the one at position [j] leaves
    room for those after it. *)
Lemma ascending_bound (l : pydict string Z) (n : Z) :
  ascending l → Forall (λ kv, kv.2 < n) l →
  ∀ j kv, l !! j = Some kv → kv.2 + Z.of_nat (length l) - Z.of_nat j ≤ n.
Proof.
  induction l as [|[ka ia] l IH]; intros Hasc Hlt j kv Hj; [done|].
  destruct Hasc as [Ha Hasc]. apply Forall_cons in Hlt as [Han Hlt].
  rewrite length_cons, Nat2Z.inj_succ.
  destruct j as [|j].
  - injection Hj as <-. destruct l as [|[kb ib] l].
    + change (Z.of_nat (length [])) with 0. simpl in *. lia.
    + apply Forall_cons in Ha as [Hab _].
      specialize (IH Hasc Hlt 0%nat (kb, ib) eq_refl).
      cbn [snd] in *. lia.
  - specialize (IH Hasc Hlt j kv Hj). lia.
Qed.

Lemma list_insert_at_pos {A} (i : Z) (x : A) (l : list A) :
  0 ≤ i ≤ Z.of_nat (length l) → i ≤ PY_SSIZE_T_MAX →
  list_insert_at i x l
  = Ok (take (Z.to_nat i) l ++ x :: drop (Z.to_nat i) l).
Proof.
  intros Hi Hmax. unfold list_insert_at.
  rewrite bool_decide_eq_true_2 by (unfold PY_SSIZE_T_MAX in *; lia).
  cbv zeta. rewrite (bool_decide_eq_false_2 (i < 0)) by lia.
  by rewrite (bool_decide_eq_false_2 (i > _)) by lia.
Qed.

(** Insertions at ascending positions do not disturb one another. *)
Lemma insert_loop_ascending (sub : pydict string Z) (inv_dict : pydict Z string)
    (order : list string) :
  (∀ k i, (k, i) ∈ sub → pd_lookup i inv_dict = Some k) →
  ascending sub →
  (∀ j kv, sub !! j = Some kv →
           0 ≤ kv.2 ≤ Z.of_nat (length order + j) ∧ kv.2 ≤ PY_SSIZE_T_MAX) →
  ∃ order', insert_loop sub.*2 inv_dict order = Ok order' ∧
    length order' = (length order + length sub)%nat ∧
    (∀ k i, (k, i) ∈ sub → order' !! Z.to_nat i = Some k) ∧
    (∀ p, (∀ kv, kv ∈ sub → (p < Z.to_nat kv.2)%nat) → order' !! p = order !! p).
Proof.
  revert order. induction sub as [|[k0 i0] rest IH]; intros order Hlook Hasc Hbound.
  - exists order. simpl. split; [done|]. split; [lia|].
    split; [by intros ?? ?%elem_of_nil|done].
  - destruct Hasc as [Hlt Hasc]. rewrite fmap_cons. cbn [insert_loop snd].
    rewrite (Hlook k0 i0) by left.
    destruct (Hbound 0%nat (k0, i0) eq_refl) as [Hi0 Hmax]. simpl in Hi0, Hmax.
    rewrite Nat.add_0_r in Hi0.
    rewrite list_insert_at_pos by done. py_unfold.
    set (n := Z.to_nat i0). set (order1 := take n order ++ k0 :: drop n order).
    assert (length order1 = S (length order)) as Hlen1.
    { unfold order1. rewrite length_app, length_take. simpl.
      rewrite length_drop. lia. }
    destruct (IH order1) as (order' & -> & Hlen & Hpos & Hlow).
    { intros k i Hin. apply Hlook. by right. }
    { done. }
    { intros j kv Hj. destruct (Hbound (S j) kv Hj) as [Hb ?].
      split; [|done]. rewrite Hlen1. lia. }
    exists order'. split; [done|]. split; [simpl; lia|]. split.
    + intros k i [[= -> ->]|Hin]%elem_of_cons; [|by apply Hpos].
      rewrite Hlow.
      * unfold order1. rewrite lookup_app_r by (rewrite length_take; lia).
        rewrite length_take.
        by replace (_ - _)%nat with 0%nat by (unfold n; lia).
      * intros kv Hkv. rewrite Forall_forall in Hlt. specialize (Hlt _ Hkv).
        simpl in Hlt. lia.
    + intros p Hp. rewrite Hlow.
      * assert (p < n)%nat as Hpn by (apply (Hp (k0, i0)); left).
        unfold order1. rewrite lookup_app_l by (rewrite length_take; lia).
        by rewrite lookup_take_lt.
      * intros kv Hkv. apply Hp. by right.
Qed.

(** X15: [reorder] with a name that is no Registry key raises
    [ValueError] (from [order.remove]) and leaves the Registry as it
    was. *)
Theorem reorder_unknown_name_raises (new_order : pydict string Z)
    (k : string) (w : World) :
  k ∈ pd_keys new_order → k ∉ pd_keys (items (self w)) →
  reorder new_order w = (Raise ValueError, w).
Proof.
  intros Hk Hnin. unfold reorder, keys. py_unfold.
  destruct (remove_loop _ _) as [r|e] eqn:Hrm.
  - destruct Hnin. eapply remove_loop_Ok; eauto.
  - by apply remove_loop_error in Hrm as ->.
Qed.

(** X15 at work. *)
Lemma reorder_unknown_name_raises_witness :
  reorder [("pore.area", 0)] test_geometry = (Raise ValueError, test_geometry).
Proof.
  apply (reorder_unknown_name_raises _ "pore.area").
  - by_compute.
  - by_compute.
Defined.

(** X16: [reorder] with valid names and a target index outside the
    index range of the runtime raises [OverflowError] (from
    [order.insert]) and leaves the Registry as it was. *)
Theorem reorder_index_overflow (new_order : pydict string Z)
    (k : string) (i : Z) (w : World) :
  NoDup (pd_keys new_order) →
  (∀ x, x ∈ pd_keys new_order → x ∈ pd_keys (items (self w))) →
  (k, i) ∈ new_order →
  ¬ (- PY_SSIZE_T_MAX - 1 ≤ i ≤ PY_SSIZE_T_MAX) →
  reorder new_order w = (Raise OverflowError, w).
Proof.
  intros Hnd Hsub Hin Hout. unfold reorder, keys. py_unfold.
  destruct (remove_loop_total _ _ Hnd Hsub) as (order1 & -> & _).
  rewrite insert_loop_overflow; [done|done|].
  exists i. split; [|done]. apply invert_keys.
  apply list_elem_of_fmap. by exists (k, i).
Qed.

(** X16 at work. *)
Lemma reorder_index_overflow_witness :
  reorder [("throat.seed", 0); ("pore.seed", 2 ^ 63)] test_geometry
  = (Raise OverflowError, test_geometry).
Proof.
  apply (reorder_index_overflow _ "pore.seed" (2 ^ 63)).
  - by_compute.
  - intros x Hx. apply (bool_decide_unpack _).
    repeat (apply elem_of_cons in Hx as [->|Hx]; [vm_compute; exact I|]).
    by apply elem_of_nil in Hx.
  - by_compute.
  - by_compute.
Defined.

(** X17: [reorder] with an empty mapping moves every key to the end in
    turn, which leaves the Registry exactly as it was. *)
Theorem reorder_empty_is_noop (w : World) :
  NoDup (pd_keys (items (self w))) →
  reorder [] w = (Ok tt, w).
Proof.
  intros Hnd. unfold reorder, keys. py_unfold. simpl.
  rewrite move_loop_exact; [|done..].
  rewrite filter_none by (by intros [k v] Hin Hk; apply Hk, list_elem_of_fmap;
                            exists (k, v)).
  simpl. by rewrite (pd_rebuild ∅ _ Hnd), set_items_id.
Qed.

(** X17 at work. *)
Lemma reorder_empty_is_noop_witness :
  reorder [] test_geometry = (Ok tt, test_geometry).
Proof. apply reorder_empty_is_noop. by_compute. Defined.

(** X18: after a [reorder] with valid names, the keys that were not
    named are in the same relative order as before, and every key, named
    or not, has the entry it had. *)
Theorem reorder_keeps_unnamed_order (new_order : pydict string Z) (w : World) :
  NoDup (pd_keys (items (self w))) →
  NoDup (pd_keys new_order) →
  (∀ k, k ∈ pd_keys new_order → k ∈ pd_keys (items (self w))) →
  Forall (λ kv, - PY_SSIZE_T_MAX - 1 ≤ kv.2 ≤ PY_SSIZE_T_MAX) new_order →
  let w' := (reorder new_order w).2 in
  filter (λ k, k ∉ pd_keys new_order) (pd_keys (items (self w')))
  = filter (λ k, k ∉ pd_keys new_order) (pd_keys (items (self w))) ∧
  ∀ k, pd_lookup k (items (self w')) = pd_lookup k (items (self w)).
Proof.
  intros Hnk Hnn Hsub Hrange. cbv zeta.
  destruct (reorder_exact new_order w Hnk Hnn Hsub Hrange)
    as (order & _ & Hno & Hin & Hunnamed & Hfilter & Hre & Hperm).
  split; [|intros k; by apply pd_lookup_Permutation].
  rewrite Hre. cbn [snd set_items self items].
  rewrite pd_keys_app_pairs, filter_app, filter_none; [by rewrite Hfilter|].
  intros x ([k v] & -> & [Hk Hkv]%list_elem_of_filter)%list_elem_of_fmap Hx.
  simpl in *. apply Hk, Hunnamed; [|done].
  apply list_elem_of_fmap. by exists (k, v).
Qed.

(** X18 at work. *)
Lemma reorder_keeps_unnamed_order_witness :
  let w' := (reorder [("pore.seed", 1); ("throat.length", 1)] test_geometry).2 in
  pd_keys (items (self w')) = ["pore.seed"; "throat.seed"; "throat.length"] ∧
  filter (λ k, k ∉ ["pore.seed"; "throat.length"]) (pd_keys (items (self w')))
  = ["throat.seed"].
Proof.
  intros w'. split; [vm_compute; reflexivity|].
  destruct (reorder_keeps_unnamed_order
              [("pore.seed", 1); ("throat.length", 1)] test_geometry)
    as [Hfilter _].
  - by_compute.
  - by_compute.
  - apply test_geometry_names. vm_compute. reflexivity.
  - by_compute.
  - etrans; [exact Hfilter|]. vm_compute. reflexivity.
Defined.

(** The on-demand loop stops with [KeyError] at the first entry that has
    no ['regen_mode'], when nothing before it is on demand. *)
Lemma on_demand_loop_KeyError l1 k l2 entry w :
  (∀ x, x ∈ l1 → ∃ e v, pd_lookup x (items (self w)) = Some e ∧
                        e !! "regen_mode" = Some v ∧
                        py_eq_str v "on_demand" = false) →
  pd_lookup k (items (self w)) = Some entry →
  entry !! "regen_mode" = None →
  ∀ n i fuel, (i + n = length l1)%nat → (n < fuel)%nat →
  on_demand_loop fuel i (l1 ++ k :: l2) w
  = (Raise (KeyError (PyStr "regen_mode")), w).
Proof.
  intros Hl1 Hk Hentry. induction n as [|n IH]; intros i [|fuel] Hi Hfuel;
    try lia; simpl.
  - rewrite lookup_app_r by lia. replace (i - length l1)%nat with 0%nat by lia.
    simpl. unfold ModelsDict_getitem, dict_getitem. py_unfold.
    by rewrite Hk, Hentry.
  - destruct (lookup_lt_is_Some_2 l1 i) as [x Hx]; [lia|].
    rewrite lookup_app_l by lia. rewrite Hx.
    destruct (Hl1 x) as (e & v & He & Hv & Hod); [by eapply list_elem_of_lookup_2|].
    unfold ModelsDict_getitem, dict_getitem. py_unfold.
    rewrite He, Hv, Hod. apply IH; lia.
Qed.

(** X7: [regenerate()] with no arguments reads ['regen_mode'] of the
    entries in Registry order; it raises [KeyError] at the first entry that
    has none (one assigned directly, without a mode) when no entry before it
    is on demand, and nothing has run. *)
Theorem regenerate_default_missing_mode_raises
    (call_fun : nat → GenericModel → World → result pyval) (mode : string)
    (d1 d2 : pydict string GenericModel) (k : string) (entry : GenericModel)
    (w : World) :
  items (self w) = d1 ++ (k, entry) :: d2 →
  Forall (λ kv, ∃ v, kv.2 !! "regen_mode" = Some v ∧
                     py_eq_str v "on_demand" = false) d1 →
  k ∉ pd_keys d1 →
  entry !! "regen_mode" = None →
  regenerate call_fun (PropsStr "") mode w
  = (Raise (KeyError (PyStr "regen_mode")), w).
Proof.
  intros Hitems Hmodes Hk Hentry. unfold regenerate. apply bind_Raise.
  assert (∀ x, x ∈ d1.*1 → ∃ e v, pd_lookup x (items (self w)) = Some e ∧
            e !! "regen_mode" = Some v ∧ py_eq_str v "on_demand" = false) as H1.
  { intros x Hx. destruct (pd_lookup_Some _ _ Hx) as [e He].
    rewrite Forall_forall in Hmodes.
    destruct (Hmodes _ (pd_lookup_elem_of _ _ _ He)) as (v & Hv & Hod).
    exists e, v. by rewrite Hitems, pd_lookup_app_l. }
  assert (pd_lookup k (items (self w)) = Some entry) as H2.
  { rewrite Hitems, pd_lookup_app_r by done. simpl. by rewrite decide_True. }
  unfold select, keys. py_unfold. simpl.
  rewrite Hitems. unfold pd_keys. rewrite fmap_app, fmap_cons. simpl.
  rewrite (on_demand_loop_KeyError (d1.*1) k (d2.*1) entry w H1 H2 Hentry
             (length d1.*1) 0%nat); [done|done|].
  rewrite length_app. simpl. lia.
Qed.

(** X7 at work. *)
Lemma regenerate_default_missing_mode_raises_witness :
  regenerate demo_fun (PropsStr "") "inclusive" unmoded_models
  = (Raise (KeyError (PyStr "regen_mode")), unmoded_models).
Proof.
  apply (regenerate_default_missing_mode_raises demo_fun "inclusive"
           (items (self test_geometry)) [] "pore.area"
           (wrap "pore.area" {[ "model" := PyFun 0 ]})).
  - reflexivity.
  - repeat (apply Forall_cons; split; [by exists (PyStr "static")|]).
    apply Forall_nil_2.
  - by_compute.
  - reflexivity.
Defined.

(** [reorder] with target indices in strictly ascending order, all within
    the Registry: the rebuilt sequence holds every key, each named key at
    its index. *)
Lemma reorder_ascending (new_order : pydict string Z) (w : World) :
  NoDup (pd_keys (items (self w))) →
  NoDup (pd_keys new_order) →
  (∀ k, k ∈ pd_keys new_order → k ∈ pd_keys (items (self w))) →
  ascending new_order →
  Forall (λ kv, 0 ≤ kv.2 < Z.of_nat (length (items (self w)))) new_order →
  Z.of_nat (length (items (self w))) ≤ PY_SSIZE_T_MAX →
  ∃ order,
    reorder new_order w
    = (Ok tt,
       set_items ((λ k, (k, default ∅ (pd_lookup k (items (self w))))) <$> order)
                 w) ∧
    length order = length (items (self w)) ∧
    ∀ k i, (k, i) ∈ new_order → order !! Z.to_nat i = Some k.
Proof.
  intros Hnk Hnn Hsub Hasc Hrange Hmax.
  assert (Forall (λ kv, - PY_SSIZE_T_MAX - 1 ≤ kv.2 ≤ PY_SSIZE_T_MAX) new_order)
    as Hrange'.
  { eapply Forall_impl; [exact Hrange|]. intros kv Hkv. simpl in Hkv.
    unfold PY_SSIZE_T_MAX in *. lia. }
  destruct (reorder_exact new_order w Hnk Hnn Hsub Hrange')
    as (order & Hloop & Hno & Hin & Hunnamed & Hfilter & Hre & _).
  pose proof (ascending_NoDup _ Hasc) as Hni.
  rewrite (invert_distinct _ Hni) in Hloop.
  set (ks := pd_keys (items (self w))) in *.
  set (order1 := filter (λ k, k ∉ pd_keys new_order) ks) in *.
  assert (length (items (self w)) = length ks) as Hlk
    by (unfold ks, pd_keys; by rewrite length_fmap).
  assert (length ks = (length new_order + length order1)%nat) as Hlen.
  { assert (ks ≡ₚ pd_keys new_order ++ order1) as ->.
    { apply remove_loop_Permutation. by apply remove_loop_filter. }
    rewrite length_app. unfold pd_keys. by rewrite length_fmap. }
  destruct (insert_loop_ascending new_order
              ((λ kv, (kv.2, kv.1)) <$> new_order) order1)
    as (order' & Hloop' & Hlen' & Hpos & _).
  { intros k i Hki. apply pd_lookup_Some_iff.
    - unfold pd_keys. rewrite <-list_fmap_compose. exact Hni.
    - apply list_elem_of_fmap. by exists (k, i). }
  { done. }
  { intros j kv Hj.
    pose proof (ascending_bound new_order (Z.of_nat (length (items (self w))))
                  Hasc (Forall_impl _ _ _ Hrange (λ kv H, proj2 H)) j kv Hj) as Hb.
    rewrite Forall_forall in Hrange.
    destruct (Hrange kv) as [H0 Hn]; [by eapply list_elem_of_lookup_2|].
    split; lia. }
  assert (pd_keys ((λ kv : string * Z, (kv.2, kv.1)) <$> new_order) = new_order.*2)
    as Hkeys.
  { unfold pd_keys. rewrite <-list_fmap_compose. by apply list_fmap_ext. }
  rewrite Hkeys, Hloop' in Hloop. injection Hloop as ->.
  exists order. split; [|split; [lia|done]].
  rewrite Hre. rewrite filter_none; [done|].
  intros [x v] Hxv Hx. simpl in Hx. apply Hx.
  assert (x ∈ ks) as Hxks by (apply list_elem_of_fmap; by exists (x, v)).
  destruct (decide (x ∈ pd_keys new_order)) as [Hnamed|Hnamed].
  - apply list_elem_of_fmap in Hnamed as ([x' i'] & -> & Hin').
    eapply list_elem_of_lookup_2. by apply Hpos.
  - by apply Hunnamed.
Qed.

(** X19: when the target indices are supplied in strictly ascending
    order and lie within the Registry, [reorder] puts every named key
    exactly at its target index. *)
Theorem reorder_ascending_places_keys (new_order : pydict string Z) (w : World) :
  NoDup (pd_keys (items (self w))) →
  NoDup (pd_keys new_order) →
  (∀ k, k ∈ pd_keys new_order → k ∈ pd_keys (items (self w))) →
  ascending new_order →
  Forall (λ kv, 0 ≤ kv.2 < Z.of_nat (length (items (self w)))) new_order →
  Z.of_nat (length (items (self w))) ≤ PY_SSIZE_T_MAX →
  let r := reorder new_order w in
  r.1 = Ok tt ∧
  ∀ k i, (k, i) ∈ new_order →
         pd_keys (items (self r.2)) !! Z.to_nat i = Some k.
Proof.
  intros Hnk Hnn Hsub Hasc Hrange Hmax. cbv zeta.
  destruct (reorder_ascending new_order w Hnk Hnn Hsub Hasc Hrange Hmax)
    as (order & -> & _ & Hpos).
  split; [done|]. intros k i Hki. cbn [snd set_items self items].
  rewrite <-(app_nil_l (_ <$> order)), pd_keys_app_pairs. by apply Hpos.
Qed.

(** X19 at work. *)
Lemma reorder_ascending_places_keys_witness :
  let r := reorder [("throat.length", 0); ("pore.seed", 1)] test_geometry in
  r.1 = Ok tt ∧
  pd_keys (items (self r.2)) !! 0%nat = Some "throat.length" ∧
  pd_keys (items (self r.2)) !! 1%nat = Some "pore.seed".
Proof.
  intros r.
  destruct (reorder_ascending_places_keys
              [("throat.length", 0); ("pore.seed", 1)] test_geometry)
    as [Hr Hpos].
  - by_compute.
  - by_compute.
  - apply test_geometry_names. vm_compute. reflexivity.
  - repeat split; repeat (apply Forall_cons; split; [done|]); apply Forall_nil_2.
  - repeat (apply Forall_cons; split; [by vm_compute|]). apply Forall_nil_2.
  - by vm_compute.
  - split; [exact Hr|]. split.
    + apply (Hpos "throat.length" 0). by_compute.
    + apply (Hpos "pore.seed" 1). by_compute.
Defined.

Lemma ascending_imap (ks : list string) (n : nat) :
  ascending (imap (λ i k, (k, Z.of_nat (n + i))) ks).
Proof.
  revert n. induction ks as [|k ks IH]; intros n; [done|].
  rewrite imap_cons. split.
  - apply Forall_forall. intros kv (i & k' & -> & _)%elem_of_lookup_imap.
    simpl. lia.
  - rewrite (imap_ext _ (λ i k, (k, Z.of_nat (S n + i)))); [apply IH|].
    intros i x _. simpl. do 2 f_equal. lia.
Qed.

Lemma imap_index_keys (ks : list string) (n : nat) :
  (imap (λ i k, (k, Z.of_nat (n + i))) ks).*1 = ks.
Proof.
  revert n. induction ks as [|k ks IH]; intros n; [done|].
  rewrite imap_cons, fmap_cons. simpl. f_equal.
  rewrite (imap_ext _ (λ i k, (k, Z.of_nat (S n + i)))); [apply IH|].
  intros i x _. simpl. do 2 f_equal. lia.
Qed.

(** X20: [reorder] with every key mapped to its current index, in
    Registry order, leaves the Registry exactly as it was. *)
Theorem reorder_identity_is_noop (w : World) :
  NoDup (pd_keys (items (self w))) →
  Z.of_nat (length (items (self w))) ≤ PY_SSIZE_T_MAX →
  reorder (imap (λ i k, (k, Z.of_nat i)) (pd_keys (items (self w)))) w
  = (Ok tt, w).
Proof.
  intros Hnk Hmax.
  set (ks := pd_keys (items (self w))).
  set (new_order := imap (λ i k, (k, Z.of_nat i)) ks).
  assert (pd_keys new_order = ks) as Hnames.
  { apply (imap_index_keys ks 0). }
  assert (length ks = length (items (self w))) as Hlk
    by (unfold ks, pd_keys; by rewrite length_fmap).
  destruct (reorder_ascending new_order w) as (order & -> & Hlen & Hpos).
  - done.
  - by rewrite Hnames.
  - by rewrite Hnames.
  - apply (ascending_imap ks 0).
  - apply Forall_forall. intros kv (i & k & -> & Hi)%elem_of_lookup_imap.
    simpl. apply lookup_lt_Some in Hi. lia.
  - done.
  - assert (order = ks) as ->.
    { apply list_eq_same_length with (length ks); [done|lia|].
      intros i x y Hi Hx Hy.
      assert ((y, Z.of_nat i) ∈ new_order) as Hin.
      { apply elem_of_lookup_imap. eauto. }
      apply Hpos in Hin. rewrite Nat2Z.id in Hin. congruence. }
    by rewrite (pd_rebuild ∅ _ Hnk), set_items_id.
Qed.

(** X20 at work. *)
Lemma reorder_identity_is_noop_witness :
  reorder [("pore.seed", 0); ("throat.seed", 1); ("throat.length", 2)]
    test_geometry = (Ok tt, test_geometry).
Proof.
  apply (reorder_identity_is_noop test_geometry).
  - by_compute.
  - by vm_compute.
Defined.
